(** * A shallow embedding of the webhook server (src/server.js)

    The directive parser [parseWebhookPath], the response helper
    [sendImmediateResponse], the two forwarding helpers
    [forwardRequestAndRespond] / [forwardRequestInBackground] and the
    [app.all(/^\/webhook\/(.+)/)] handler, with the storage helpers
    [saveRequest] / [updateRequest] as the record store they act on.

    JavaScript strings are lists of UTF-16 code units ([jsstr]); [js "..."]
    turns an ASCII literal into one. *)

From Stdlib Require Import ZArith List Bool Lia.
From Stdlib Require Import Strings.String Strings.Ascii.
Import ListNotations.
Open Scope Z_scope.

(* ------------------------------------------------------------------ *)
(** ** JavaScript strings *)

Module JS.

Definition jsstr := list Z.

Definition js (s : string) : jsstr :=
  map (fun a => Z.of_nat (nat_of_ascii a)) (list_ascii_of_string s).

Fixpoint str_eqb (a b : jsstr) : bool :=
  match a, b with
  | [], [] => true
  | x :: a', y :: b' => (x =? y) && str_eqb a' b'
  | _, _ => false
  end.

(** [s.startsWith(p)], returning the rest of [s] after [p]. *)
Fixpoint strip_prefix (p s : jsstr) : option jsstr :=
  match p, s with
  | [], _ => Some s
  | x :: p', y :: s' => if x =? y then strip_prefix p' s' else None
  | _ :: _, [] => None
  end.

Definition starts_with (p s : jsstr) : bool :=
  match strip_prefix p s with Some _ => true | None => false end.

(** [hay.indexOf(needle)] as an optional position. *)
Fixpoint index_of_from (needle hay : jsstr) (i : nat) : option nat :=
  if starts_with needle hay then Some i
  else match hay with
       | [] => None
       | _ :: hay' => index_of_from needle hay' (S i)
       end.

Definition indexOf (hay needle : jsstr) : Z :=
  match index_of_from needle hay 0 with
  | Some i => Z.of_nat i
  | None => -1
  end.

Definition includes (hay needle : jsstr) : bool :=
  match index_of_from needle hay 0 with Some _ => true | None => false end.

(** [s.length] *)
Definition len (s : jsstr) : Z := Z.of_nat (List.length s).

(** [s.substring(a, b)]: arguments clamped to [0, length], swapped when
    [a > b]. *)
Definition clamp (s : jsstr) (a : Z) : nat :=
  Z.to_nat (Z.max 0 (Z.min a (len s))).

Definition substring (s : jsstr) (a b : Z) : jsstr :=
  let i := clamp s a in
  let j := clamp s b in
  let lo := Nat.min i j in
  let hi := Nat.max i j in
  firstn (hi - lo) (skipn lo s).

Definition substring_from (s : jsstr) (a : Z) : jsstr :=
  substring s a (len s).

Fixpoint take_while (p : Z -> bool) (s : jsstr) : jsstr :=
  match s with
  | [] => []
  | c :: s' => if p c then c :: take_while p s' else []
  end.

(** [String(n)] for an integer *)
Fixpoint digits_rev (fuel : nat) (n : Z) : jsstr :=
  match fuel with
  | O => []
  | S f =>
      if n <? 10 then [48 + n]
      else (48 + n mod 10) :: digits_rev f (n / 10)
  end.

Definition Z_to_str (n : Z) : jsstr :=
  if n <? 0 then 45 :: rev (digits_rev 64 (- n))
  else rev (digits_rev 64 n).

(** Character classes of the regular expressions. *)
Definition is_digit (c : Z) : bool := (48 <=? c) && (c <=? 57).
Definition is_slash (c : Z) : bool := c =? 47.

(** [[a-zA-Z0-9_-]] *)
Definition is_id_char (c : Z) : bool :=
  ((97 <=? c) && (c <=? 122)) || ((65 <=? c) && (c <=? 90)) || is_digit c
  || (c =? 95) || (c =? 45).

(** [\s]: WhiteSpace and LineTerminator of ECMA-262 *)
Definition is_space (c : Z) : bool :=
  ((9 <=? c) && (c <=? 13)) || (c =? 32) || (c =? 160) || (c =? 5760)
  || ((8192 <=? c) && (c <=? 8202)) || (c =? 8232) || (c =? 8233)
  || (c =? 8239) || (c =? 8287) || (c =? 12288) || (c =? 65279).

(** LineTerminator, the code units [.] does not match *)
Definition is_line_terminator (c : Z) : bool :=
  (c =? 10) || (c =? 13) || (c =? 8232) || (c =? 8233).

(** ASCII [toLowerCase], enough for header names *)
Definition lower (c : Z) : Z := if (65 <=? c) && (c <=? 90) then c + 32 else c.

End JS.
Import JS.

(* ------------------------------------------------------------------ *)
(** ** [decodeURIComponent] (ECMA-262 Decode with an empty reserved set) *)

Module URI.

Definition hex_val (c : Z) : option Z :=
  if (48 <=? c) && (c <=? 57) then Some (c - 48)
  else if (65 <=? c) && (c <=? 70) then Some (c - 55)
  else if (97 <=? c) && (c <=? 102) then Some (c - 87)
  else None.

(** one ["%XY"] escape *)
Definition escaped_byte (s : jsstr) : option (Z * jsstr) :=
  match s with
  | 37 :: h1 :: h2 :: rest =>
      match hex_val h1, hex_val h2 with
      | Some a, Some b => Some (a * 16 + b, rest)
      | _, _ => None
      end
  | _ => None
  end.

(** [k] continuation escapes [10xxxxxx], folded into the code point [acc] *)
Fixpoint continuation (k : nat) (acc : Z) (s : jsstr) : option (Z * jsstr) :=
  match k with
  | O => Some (acc, s)
  | S k' =>
      match escaped_byte s with
      | Some (b, rest) =>
          if Z.land b 192 =? 128
          then continuation k' (acc * 64 + Z.land b 63) rest
          else None
      | None => None
      end
  end.

(** the code point a lead byte [b >= 0x80] starts: number of continuation
    bytes, payload bits and the least code point of that length *)
Definition lead (b : Z) : option (nat * Z * Z) :=
  if Z.land b 224 =? 192 then Some (1%nat, Z.land b 31, 128)
  else if Z.land b 240 =? 224 then Some (2%nat, Z.land b 15, 2048)
  else if Z.land b 248 =? 240 then Some (3%nat, Z.land b 7, 65536)
  else None.

(** UTF-16 encoding of a code point *)
Definition utf16 (v : Z) : jsstr :=
  if v <? 65536 then [v]
  else [55296 + (v - 65536) / 1024; 56320 + (v - 65536) mod 1024].

Fixpoint decode (fuel : nat) (s : jsstr) : option jsstr :=
  match fuel with
  | O => None
  | S f =>
      match s with
      | [] => Some []
      | c :: s' =>
          if c =? 37 then
            match escaped_byte s with
            | None => None
            | Some (b, rest) =>
                if b <? 128 then option_map (cons b) (decode f rest)
                else
                  match lead b with
                  | None => None
                  | Some (k, bits, least) =>
                      match continuation k bits rest with
                      | None => None
                      | Some (v, rest') =>
                          if (v <? least) || ((55296 <=? v) && (v <=? 57343))
                             || (1114111 <? v)
                          then None
                          else option_map (app (utf16 v)) (decode f rest')
                      end
                  end
            end
          else option_map (cons c) (decode f s')
      end
  end.

(** [None] is the [URIError] the builtin throws *)
Definition decodeURIComponent (s : jsstr) : option jsstr :=
  decode (S (List.length s)) s.

End URI.

(* ------------------------------------------------------------------ *)
(** ** The directive parser ([sanitizeId], [parseWebhookPath]) *)

Module Parser.

(** A completion of a JavaScript call: a value, or a thrown error with its
    message. *)
Inductive completion (A : Type) : Type :=
| Normal (v : A)
| Throw (message : jsstr).
Arguments Normal {A} v.
Arguments Throw {A} message.

(** [sanitizeId]: [null] is [None]; the argument is a string here. *)
Definition sanitizeId (id : jsstr) : option jsstr :=
  match id with
  | [] => None
  | _ =>
      let sanitized := filter is_id_char id in
      match sanitized with [] => None | _ => Some sanitized end
  end.

(** The object [parseWebhookPath] returns; [null] and [undefined] are
    [None] (and [false] for [fullBody]). *)
Record DirectiveSet := {
  id : option jsstr;
  responseStatus : option Z;
  responseType : option jsstr;
  forwardUrl : option jsstr;
  fullBody : bool;
  tag : option jsstr;
  error : option jsstr
}.

(** [{ id: null, error: msg }] *)
Definition early_error (msg : jsstr) : DirectiveSet :=
  {| id := None; responseStatus := None; responseType := None;
     forwardUrl := None; fullBody := false; tag := None;
     error := Some msg |}.

(** *** The regular expressions

    A pattern [(^|\/)X] matches at the leftmost position: first [X] at the
    start (the [^] branch), then [X] after each ['/'] in turn. [X] is given
    as a function from the text after the prefix to the match data (its
    groups), following the engine's backtracking order. The result also
    carries group 1 (the empty string or ["/"]). *)

Fixpoint scan_slash {A} (f : jsstr -> option A) (s : jsstr) : option (jsstr * A) :=
  match s with
  | [] => None
  | c :: t =>
      if is_slash c then
        match f t with
        | Some a => Some ([47], a)
        | None => scan_slash f t
        end
      else scan_slash f t
  end.

Definition seg_match {A} (f : jsstr -> option A) (s : jsstr) : option (jsstr * A) :=
  match f s with
  | Some a => Some ([], a)
  | None => scan_slash f s
  end.

(** [(?=\/|$)] *)
Definition end_or_slash (s : jsstr) : bool :=
  match s with [] => true | c :: _ => is_slash c end.

(** [\d{3}] *)
Definition three_digits (s : jsstr) : option (jsstr * jsstr) :=
  match s with
  | a :: b :: c :: rest =>
      if is_digit a && is_digit b && is_digit c then Some ([a; b; c], rest)
      else None
  | _ => None
  end.

(** [(?:plain|json|html)], tried in that order *)
Definition res_type (s : jsstr) : option (jsstr * jsstr) :=
  match strip_prefix (js "plain") s with
  | Some r => Some (js "plain", r)
  | None =>
      match strip_prefix (js "json") s with
      | Some r => Some (js "json", r)
      | None =>
          match strip_prefix (js "html") s with
          | Some r => Some (js "html", r)
          | None => None
          end
      end
  end.

(** [res:\d{3}(?:plain|json|html)], with the text after it *)
Definition res_token (s : jsstr) : option (jsstr * jsstr) :=
  match strip_prefix (js "res:") s with
  | None => None
  | Some r =>
      match three_digits r with
      | None => None
      | Some (d, r') =>
          match res_type r' with
          | None => None
          | Some (ty, r'') => Some (js "res:" ++ d ++ ty, r'')
          end
      end
  end.

(** [(res:\d{3}(?:plain|json|html))(?=\/|$)]: group 2 *)
Definition res_at (s : jsstr) : option jsstr :=
  match res_token s with
  | Some (g, rest) => if end_or_slash rest then Some g else None
  | None => None
  end.

(** [/^(\d{3})(plain|json|html)$/]: groups 1 and 2 *)
Definition res_param_match (s : jsstr) : option (jsstr * jsstr) :=
  match three_digits s with
  | None => None
  | Some (d, r) =>
      match res_type r with
      | Some (ty, []) => Some (d, ty)
      | _ => None
      end
  end.

(** [parseInt(s, 10)] on a string of decimal digits *)
Definition parseInt10 (s : jsstr) : Z :=
  fold_left (fun acc c => acc * 10 + (c - 48)) s 0.

(** [fullbody:true(?=\/|$)] *)
Definition fullbody_at (s : jsstr) : option unit :=
  match strip_prefix (js "fullbody:true") s with
  | Some rest => if end_or_slash rest then Some tt else None
  | None => None
  end.

(** [tag:([^\/]+)(?=\/|$)]: group 2; the greedy run always stops at a
    ['/'] or the end, so the lookahead holds. *)
Definition tag_at (s : jsstr) : option jsstr :=
  match strip_prefix (js "tag:") s with
  | Some r =>
      match take_while (fun c => negb (is_slash c)) r with
      | [] => None
      | v => Some v
      end
  | None => None
  end.

(** [(.*?)\$\$]: the shortest run of non-line-terminators followed by
    ["$$"] *)
Fixpoint lazy_until_dollars (s : jsstr) : option jsstr :=
  match s with
  | 36 :: 36 :: _ => Some []
  | c :: s' =>
      if is_line_terminator c then None
      else option_map (cons c) (lazy_until_dollars s')
  | [] => None
  end.

(** [fwd:\$\$(.*?)\$\$]: group 2 *)
Definition fwd_bounded_at (s : jsstr) : option jsstr :=
  match strip_prefix (js "fwd:$$") s with
  | Some r => lazy_until_dollars r
  | None => None
  end.

(** [fwd:(https?:\/\/[^\s]+)]: group 2 *)
Definition fwd_legacy_at (s : jsstr) : option jsstr :=
  match strip_prefix (js "fwd:") s with
  | None => None
  | Some r =>
      let scheme :=
        match strip_prefix (js "https://") r with
        | Some r' => Some (js "https://", r')
        | None =>
            match strip_prefix (js "http://") r with
            | Some r' => Some (js "http://", r')
            | None => None
            end
        end in
      match scheme with
      | None => None
      | Some (sc, r') =>
          match take_while (fun c => negb (is_space c)) r' with
          | [] => None
          | run => Some (sc ++ run)
          end
      end
  end.

(** [\/(res:\d{3}(?:plain|json|html)|fullbody:true|tag:[^\/]+)], the part
    after the slash (no lookahead) *)
Definition next_param_at (s : jsstr) : bool :=
  match res_token s with
  | Some _ => true
  | None =>
      starts_with (js "fullbody:true") s
      || match strip_prefix (js "tag:") s with
         | Some (c :: _) => negb (is_slash c)
         | _ => false
         end
  end.

(** [.match(...)] of that pattern: the index of the match *)
Fixpoint next_param_index (s : jsstr) (i : nat) : option nat :=
  match s with
  | [] => None
  | c :: t =>
      if is_slash c && next_param_at t then Some i
      else next_param_index t (S i)
  end.

(** *** [parseWebhookPath] *)

Section Parse.

(** [new URL(u).protocol]; [None] when the constructor throws. *)
Variable URL_protocol : jsstr -> option jsstr.

Definition http_protocol (p : jsstr) : bool :=
  str_eqb p (js "http:") || str_eqb p (js "https:").

(** the [try { new URL(forwardUrl) ... } catch] block *)
Definition check_forward (result : DirectiveSet) (url : jsstr) : DirectiveSet :=
  match URL_protocol url with
  | Some p =>
      if http_protocol p
      then {| id := result.(id); responseStatus := result.(responseStatus);
              responseType := result.(responseType); forwardUrl := Some url;
              fullBody := result.(fullBody); tag := result.(tag);
              error := result.(error) |}
      else {| id := result.(id); responseStatus := result.(responseStatus);
              responseType := result.(responseType); forwardUrl := result.(forwardUrl);
              fullBody := result.(fullBody); tag := result.(tag);
              error := Some (js "Invalid forward URL protocol: " ++ url) |}
  | None =>
      {| id := result.(id); responseStatus := result.(responseStatus);
         responseType := result.(responseType); forwardUrl := result.(forwardUrl);
         fullBody := result.(fullBody); tag := result.(tag);
         error := Some (js "Invalid forward URL: " ++ url) |}
  end.

(** the [res:] block *)
Definition parse_res (paramString : jsstr) (result : DirectiveSet) : DirectiveSet :=
  match seg_match res_at paramString with
  | None => result
  | Some (_, g2) =>
      let resParam := substring_from g2 4 in
      match res_param_match resParam with
      | Some (status, type) =>
          {| id := result.(id); responseStatus := Some (parseInt10 status);
             responseType := Some type; forwardUrl := result.(forwardUrl);
             fullBody := result.(fullBody); tag := result.(tag);
             error := result.(error) |}
      | None =>
          {| id := result.(id); responseStatus := result.(responseStatus);
             responseType := result.(responseType); forwardUrl := result.(forwardUrl);
             fullBody := result.(fullBody); tag := result.(tag);
             error := Some (js "Invalid res parameter format: " ++ g2) |}
      end
  end.

(** the [fullbody] block *)
Definition parse_fullbody (paramString : jsstr) (result : DirectiveSet) : DirectiveSet :=
  match seg_match fullbody_at paramString with
  | None => result
  | Some _ =>
      {| id := result.(id); responseStatus := result.(responseStatus);
         responseType := result.(responseType); forwardUrl := result.(forwardUrl);
         fullBody := true; tag := result.(tag); error := result.(error) |}
  end.

(** the [tag] block; [decodeURIComponent] may throw *)
Definition parse_tag (paramString : jsstr) (result : DirectiveSet)
  : completion DirectiveSet :=
  match seg_match tag_at paramString with
  | None => Normal result
  | Some (_, v) =>
      match URI.decodeURIComponent v with
      | None => Throw (js "URI malformed")
      | Some t =>
          Normal {| id := result.(id); responseStatus := result.(responseStatus);
                    responseType := result.(responseType);
                    forwardUrl := result.(forwardUrl);
                    fullBody := result.(fullBody); tag := Some t;
                    error := result.(error) |}
      end
  end.

(** the legacy [fwd:url] branch: the URL runs to the next known
    parameter *)
Definition legacy_forward_url (paramString g1 url : jsstr) : jsstr :=
  let m0 := g1 ++ js "fwd:" ++ url in
  let fwdStart := indexOf paramString m0 in
  let fwdValueStart := fwdStart + len m0 - len url in
  let remainingString := substring_from paramString fwdValueStart in
  match next_param_index remainingString 0 with
  | Some i => substring remainingString 0 (Z.of_nat i)
  | None => remainingString
  end.

(** the [fwd:] block, bounded form first *)
Definition parse_fwd (paramString : jsstr) (result : DirectiveSet) : DirectiveSet :=
  match seg_match fwd_bounded_at paramString with
  | Some (_, url) => check_forward result url
  | None =>
      match seg_match fwd_legacy_at paramString with
      | Some (g1, url) => check_forward result (legacy_forward_url paramString g1 url)
      | None => result
      end
  end.

(** [path.replace(/^\/webhook\//, '')] *)
Definition strip_webhook_prefix (path : jsstr) : jsstr :=
  match strip_prefix (js "/webhook/") path with
  | Some r => r
  | None => path
  end.

(** the id segment and [paramString] of [cleanPath] *)
Definition split_id (cleanPath : jsstr) : jsstr * jsstr :=
  let firstSlash := indexOf cleanPath [47] in
  if firstSlash =? -1 then (cleanPath, [])
  else (substring cleanPath 0 firstSlash, substring_from cleanPath (firstSlash + 1)).

Definition parseWebhookPath (path : jsstr) : completion DirectiveSet :=
  let cleanPath := strip_webhook_prefix path in
  match cleanPath with
  | [] => Normal (early_error (js "Missing webhook ID"))
  | _ =>
      let '(rawId, paramString) := split_id cleanPath in
      match sanitizeId rawId with
      | None => Normal (early_error (js "Invalid webhook ID"))
      | Some i =>
          let result :=
            {| id := Some i; responseStatus := None; responseType := None;
               forwardUrl := None; fullBody := false; tag := None;
               error := None |} in
          match paramString with
          | [] => Normal result
          | _ =>
              let r1 := parse_res paramString result in
              let r2 := parse_fullbody paramString r1 in
              match parse_tag paramString r2 with
              | Throw e => Throw e
              | Normal r3 => Normal (parse_fwd paramString r3)
              end
          end
      end
  end.

End Parse.

End Parser.

(* ------------------------------------------------------------------ *)
(** ** A concrete [new URL(u).protocol]

    The parser above is generic in the URL constructor. This instance
    follows the scheme state of the WHATWG URL parser (an ASCII letter,
    then letters, digits, [+], [-], [.], then [':']) and, for the special
    schemes, requires a non-empty host made of allowed code points with a
    numeric port. It is used to run the parser on concrete paths. *)

Module URLModel.

Definition is_alpha (c : Z) : bool :=
  ((97 <=? c) && (c <=? 122)) || ((65 <=? c) && (c <=? 90)).

Definition is_scheme_char (c : Z) : bool :=
  is_alpha c || is_digit c || (c =? 43) || (c =? 45) || (c =? 46).

Definition special (p : jsstr) : bool :=
  existsb (str_eqb p)
    [js "http:"; js "https:"; js "ws:"; js "wss:"; js "ftp:"].

(** [/], [\], [?], [#] end the authority *)
Definition ends_authority (c : Z) : bool :=
  (c =? 47) || (c =? 92) || (c =? 63) || (c =? 35).

(** forbidden host code points, apart from [':'] (the port) and ['@'] *)
Definition forbidden_host (c : Z) : bool :=
  (c <=? 32) || existsb (Z.eqb c) [37; 60; 62; 91; 93; 94; 124; 127].

Fixpoint drop_while (p : Z -> bool) (s : jsstr) : jsstr :=
  match s with
  | [] => []
  | c :: s' => if p c then drop_while p s' else s
  end.

(** the host and port after the last ['@'] of the authority *)
Fixpoint after_last_at (s acc : jsstr) : jsstr :=
  match s with
  | [] => rev acc
  | c :: s' => if c =? 64 then after_last_at s' [] else after_last_at s' (c :: acc)
  end.

Definition valid_authority (rest : jsstr) : bool :=
  let auth := take_while (fun c => negb (ends_authority c))
                (drop_while (fun c => (c =? 47) || (c =? 92)) rest) in
  let hp := after_last_at auth [] in
  let host := take_while (fun c => negb (c =? 58)) hp in
  let port := drop_while (fun c => negb (c =? 58)) hp in
  match host with
  | [] => false
  | _ =>
      negb (existsb forbidden_host host)
      && match port with
         | [] => true
         | _ :: digits => forallb is_digit digits
         end
  end.

Definition whatwg_protocol (u : jsstr) : option jsstr :=
  match u with
  | c :: _ =>
      if is_alpha c then
        let scheme := take_while is_scheme_char u in
        match strip_prefix scheme u with
        | Some (58 :: rest) =>
            let p := map lower scheme ++ [58] in
            if special p then (if valid_authority rest then Some p else None)
            else Some p
        | _ => None
        end
      else None
  | [] => None
  end.

End URLModel.

(* ------------------------------------------------------------------ *)
(** ** The server: records, responses, forwarding and the handler *)

Module Server.
Import Parser.

Set Warnings "-register-all".

(** JSON values; a JavaScript object is an association list whose keys
    keep their insertion order. *)
Inductive json : Type :=
| JNull
| JBool (b : bool)
| JNum (n : Z)
| JStr (s : jsstr)
| JObj (fields : list (jsstr * json)).

Definition object := list (jsstr * json).

Fixpoint obj_get {A} (o : list (jsstr * A)) (k : jsstr) : option A :=
  match o with
  | [] => None
  | (k', v) :: o' => if str_eqb k k' then Some v else obj_get o' k
  end.

(** [o[k] = v]: an existing key keeps its place, a new one goes last *)
Fixpoint obj_set {A} (o : list (jsstr * A)) (k : jsstr) (v : A) : list (jsstr * A) :=
  match o with
  | [] => [(k, v)]
  | (k', v') :: o' =>
      if str_eqb k k' then (k', v) :: o' else (k', v') :: obj_set o' k v
  end.

(** [delete o[k]] *)
Definition obj_delete {A} (o : list (jsstr * A)) (k : jsstr) : list (jsstr * A) :=
  filter (fun kv => negb (str_eqb k (fst kv))) o.

(** [{ ...o, ...patch }] *)
Definition obj_merge {A} (o patch : list (jsstr * A)) : list (jsstr * A) :=
  fold_left (fun acc kv => obj_set acc (fst kv) (snd kv)) patch o.

Definition headers := list (jsstr * jsstr).

Definition headers_json (h : headers) : json :=
  JObj (map (fun kv => (fst kv, JStr (snd kv))) h).

(** The inbound request as the handler reads it: [req.method],
    [req.headers] (lower-case names) and [req.body ? req.body.toString() : '']. *)
Record request := {
  req_method : jsstr;
  req_headers : headers;
  raw_body : jsstr
}.

(** The response the handler writes: [res.status], the headers set with
    [res.set], and the body of [res.json] or [res.send]. *)
Inductive body : Type :=
| BJson (j : json)
| BText (s : jsstr).

Record response := {
  status : Z;
  res_headers : headers;
  res_body : body
}.

(** [res.set(key, value)]: header names compare case-insensitively *)
Definition res_set (h : headers) (k v : jsstr) : headers :=
  match find (fun kv => str_eqb (map lower (fst kv)) (map lower k)) h with
  | Some _ =>
      map (fun kv => if str_eqb (map lower (fst kv)) (map lower k) then (fst kv, v) else kv) h
  | None => h ++ [(k, v)]
  end.

(** The [axiosConfig] object. *)
Record axios_config := {
  ax_method : jsstr;
  ax_url : jsstr;
  ax_headers : headers;
  ax_timeout : Z;
  ax_data : option jsstr
}.

(** How the [await axios(axiosConfig)] settles: a response
    ([response.status], [response.headers], [response.data] as text), or a
    rejection with its [message]. *)
Inductive axios_outcome : Type :=
| AxOk (st : Z) (hs : headers) (data : jsstr)
| AxErr (message : jsstr).

(** the rejection axios produces when [timeout] elapses *)
Definition axios_timeout (cfg : axios_config) : axios_outcome :=
  AxErr (js "timeout of " ++ Z_to_str cfg.(ax_timeout) ++ js "ms exceeded").

Inductive forward_mode := Synchronous | Background.

(** What the program does, in order. *)
Inductive event : Type :=
| ELookup (webhookId : jsstr)                   (* findWebhookById *)
| ESaved (rid : jsstr)                          (* saveRequest resolved *)
| EEmit (webhookId name rid : jsstr)            (* app.emitRequestEvent *)
| EForward (mode : forward_mode) (cfg : axios_config)  (* axios(...) issued *)
| EUpdated (rid : jsstr)                        (* updateRequest resolved *)
| ERespond (r : response).                      (* the client response *)

(** The store ([Request] documents, or the [requests] arrays of the JSON
    files) and the trace. *)
Record world := {
  store : list object;
  trace : list event
}.

(** How the collaborators behave on this request: whether [saveRequest]
    and [updateRequest] resolve or throw, whether a resolved call also
    changed the storage (the file store resolves without writing when the
    write fails), how the upstream call settles, and the [uuidv4()] drawn
    for [rid]. *)
Record env := {
  save_ok : bool;
  update_ok : bool;
  save_stored : bool;
  update_stored : bool;
  upstream : axios_config -> axios_outcome;
  new_rid : jsstr
}.

(** *** A state monad over [world] *)

Definition M (A : Type) : Type := world -> A * world.

Definition ret {A} (a : A) : M A := fun w => (a, w).

Definition bind {A B} (m : M A) (f : A -> M B) : M B :=
  fun w => let (a, w') := m w in f a w'.

Notation "x <- m ;; k" := (bind m (fun x => k))
  (at level 61, m at next level, right associativity).
Notation "m ;;; k" := (bind m (fun _ => k))
  (at level 61, right associativity).

Definition record (e : event) : M unit :=
  fun w => (tt, {| store := w.(store); trace := w.(trace) ++ [e] |}).

Definition respond (r : response) : M unit := record (ERespond r).

(** [app.emitRequestEvent]; failures are swallowed, so it always returns *)
Definition emitRequestEvent (webhookId name rid : jsstr) : M unit :=
  record (EEmit webhookId name rid).

(** [saveRequest]: [true] when it resolved *)
Definition saveRequest (E : env) (entry : object) : M bool :=
  fun w =>
    if E.(save_ok) then
      let rid := match obj_get entry (js "rid") with Some (JStr r) => r | _ => [] end in
      (true, {| store := if E.(save_stored) then w.(store) ++ [entry] else w.(store);
                trace := w.(trace) ++ [ESaved rid] |})
    else (false, w).

Definition has_rid (rid : jsstr) (o : object) : bool :=
  match obj_get o (js "rid") with Some (JStr r) => str_eqb r rid | _ => false end.

(** the first record with that [rid] gets [{ ...record, ...patch }] *)
Fixpoint patch_first (rid : jsstr) (patch : object) (s : list object) : list object :=
  match s with
  | [] => []
  | o :: s' => if has_rid rid o then obj_merge o patch :: s'
               else o :: patch_first rid patch s'
  end.

(** [updateRequest]: [true] when it resolved *)
Definition updateRequest (E : env) (rid : jsstr) (patch : object) : M bool :=
  fun w =>
    if E.(update_ok) then
      (true, {| store := if E.(update_stored) then patch_first rid patch w.(store)
                         else w.(store);
                trace := w.(trace) ++ [EUpdated rid] |})
    else (false, w).

(** *** [sendImmediateResponse] *)

Definition line (k : string) (v : jsstr) : jsstr := js k ++ v ++ [10].

(** the response [sendImmediateResponse] writes *)
Definition immediate_response (st : Z) (type : jsstr) (wid method rawBody : jsstr)
  : response :=
  if str_eqb type (js "json") then
    {| status := st;
       res_headers := [(js "Content-Type", js "application/json; charset=utf-8")];
       res_body := BJson (JObj [(js "ok", JBool true); (js "id", JStr wid);
                                        (js "method", JStr method);
                                        (js "response_status", JNum st);
                                        (js "receivedBytes", JNum (len rawBody))]) |}
  else if str_eqb type (js "html") then
    {| status := st;
       res_headers := [(js "Content-Type", js "text/html; charset=utf-8")];
       res_body := BText (js "<!doctype html><html><head><meta charset=" ++ [34]
                 ++ js "utf-8" ++ [34] ++ js "><title>Webhook " ++ wid
                 ++ js "</title></head><body><h1>Webhook " ++ wid
                 ++ js "</h1><p>Status: " ++ Z_to_str st
                 ++ js "</p><p>Method: " ++ method
                 ++ js "</p><p>Received: " ++ Z_to_str (len rawBody)
                 ++ js " bytes</p></body></html>") |}
  else
    {| status := st;
       res_headers := [(js "Content-Type", js "text/plain; charset=utf-8")];
       res_body := BText (line "ok=" (js "true") ++ line "id=" wid
                 ++ line "method=" method ++ line "status=" (Z_to_str st)
                 ++ line "bytes=" (Z_to_str (len rawBody))) |}.

Definition sendImmediateResponse (st : Z) (type : jsstr) (wid method rawBody : jsstr)
  : M unit :=
  respond (immediate_response st type wid method rawBody).

(** *** Forwarding *)

Definition hop_by_hop : list jsstr :=
  [js "connection"; js "keep-alive"; js "proxy-authenticate";
   js "proxy-authorization"; js "te"; js "trailers"; js "transfer-encoding";
   js "upgrade"; js "host"].

(** [{ ...req.headers }] with the hop-by-hop headers deleted *)
Definition forward_headers (req : request) : headers :=
  fold_left obj_delete hop_by_hop req.(req_headers).

Definition make_config (forwardUrl : jsstr) (req : request) (rawBody : jsstr)
  : axios_config :=
  {| ax_method := map lower req.(req_method);
     ax_url := forwardUrl;
     ax_headers := forward_headers req;
     ax_timeout := 30000;
     ax_data := match rawBody with [] => None | _ => Some rawBody end |}.

Definition truncation_marker : jsstr :=
  [10] ++ js "... [truncated, use /fullbody:true to see complete response]".

(** the stored [responseBody] of a successful forward *)
Definition stored_body (fullBody : bool) (hs : headers) (data : jsstr) : jsstr :=
  let responseBody := data in
  if negb fullBody && (1000 <? len responseBody) then
    let contentType := match obj_get hs (js "content-type") with
                       | Some v => v | None => [] end in
    let isJson := includes contentType (js "application/json") in
    if negb isJson
    then substring responseBody 0 1000 ++ truncation_marker
    else responseBody
  else responseBody.

Definition rid_of (entry : object) : jsstr :=
  match obj_get entry (js "rid") with Some (JStr r) => r | _ => [] end.

Definition webhook_id_of (entry : object) : jsstr :=
  match obj_get entry (js "webhook_id") with Some (JStr r) => r | _ => [] end.

Definition method_of (entry : object) : jsstr :=
  match obj_get entry (js "method") with Some (JStr r) => r | _ => [] end.

(** the [try { await updateRequest(...); emit } catch] blocks *)
Definition update_and_emit (E : env) (entry : object) (patch : object) : M unit :=
  ok <- updateRequest E (rid_of entry) patch ;;
  if ok then emitRequestEvent (webhook_id_of entry) (js "request:updated") (rid_of entry)
  else ret tt.

(** the request-side fields both patches share (timestamps and
    durations are left out) *)
Definition request_fields (cfg : axios_config) (req : request) (rawBody : jsstr)
  : object :=
  [(js "forward_request_headers", headers_json cfg.(ax_headers));
   (js "forward_request_body", JStr rawBody);
   (js "forward_request_method", JStr req.(req_method));
   (js "forward_request_url", JStr cfg.(ax_url))].

(** what [forwardRequestAndRespond] sends the client: the upstream
    status, each upstream header through [res.set] and [res.send(response.data)];
    or the 502 JSON error *)
Definition forward_reply (o : axios_outcome) (wid method : jsstr) : response :=
  match o with
  | AxOk st hs data =>
      {| status := st;
         res_headers := fold_left (fun h kv => res_set h (fst kv) (snd kv)) hs [];
         res_body := BText data |}
  | AxErr msg =>
      {| status := 502;
         res_headers := [(js "Content-Type", js "application/json; charset=utf-8")];
         res_body := BJson (JObj [(js "ok", JBool false);
                                  (js "error", JStr (js "Upstream request failed"));
                                  (js "message", JStr msg);
                                  (js "id", JStr wid);
                                  (js "method", JStr method);
                                  (js "status", JNum 502)]) |}
  end.

Definition forwardRequestAndRespond (E : env) (entry : object) (forwardUrl : jsstr)
  (req : request) (rawBody : jsstr) (fullBody : bool) : M unit :=
  let cfg := make_config forwardUrl req rawBody in
  record (EForward Synchronous cfg) ;;;
  match E.(upstream) cfg with
  | AxOk st hs data =>
      let responseBody := stored_body fullBody hs data in
      respond (forward_reply (AxOk st hs data) (webhook_id_of entry) (method_of entry)) ;;;
      update_and_emit E entry
        ([(js "proxied_status", JNum st); (js "response_status", JNum st);
          (js "forward_response_status", JNum st);
          (js "forward_response_headers", headers_json hs);
          (js "forward_response_body", JStr responseBody)]
         ++ request_fields cfg req rawBody)
  | AxErr msg =>
      update_and_emit E entry
        ([(js "proxy_error", JStr msg); (js "response_status", JNum 502);
          (js "forward_response_status", JNum 502);
          (js "forward_response_body", JStr (js "Error: " ++ msg))]
         ++ request_fields cfg req rawBody) ;;;
      respond (forward_reply (AxErr msg) (webhook_id_of entry) (method_of entry))
  end.

(** Calling the async [forwardRequestInBackground] without [await]: its
    body runs up to [await axios(...)] at once (issuing the call); the rest
    is the detached task returned, run when the call settles. *)
Definition forwardRequestInBackground (E : env) (entry : object) (forwardUrl : jsstr)
  (req : request) (rawBody : jsstr) (fullBody : bool) : M (M unit) :=
  let cfg := make_config forwardUrl req rawBody in
  record (EForward Background cfg) ;;;
  ret (match E.(upstream) cfg with
       | AxOk st hs data =>
           update_and_emit E entry
             ([(js "proxied_status", JNum st); (js "background_forward", JBool true);
               (js "forward_response_status", JNum st);
               (js "forward_response_headers", headers_json hs);
               (js "forward_response_body", JStr (stored_body fullBody hs data))]
              ++ request_fields cfg req rawBody)
       | AxErr msg =>
           update_and_emit E entry
             ([(js "proxy_error", JStr msg); (js "background_forward", JBool true);
               (js "forward_response_status", JNum 502);
               (js "forward_response_body", JStr (js "Error: " ++ msg))]
              ++ request_fields cfg req rawBody)
       end).

(** *** The [app.all(/^\/webhook\/(.+)/)] handler *)

Definition opt_num (o : option Z) : json :=
  match o with Some n => JNum n | None => JNull end.

Definition opt_str (o : option jsstr) : json :=
  match o with Some s => JStr s | None => JNull end.

(** [requestEntry] (without [time], [ip], [user_agent], [query],
    [full_url] and [path]) *)
Definition request_entry (pp : DirectiveSet) (i rid : jsstr) (req : request)
  (hasResponseParams : bool) : object :=
  [(js "webhook_id", JStr i); (js "rid", JStr rid);
   (js "method", JStr req.(req_method));
   (js "headers", headers_json req.(req_headers));
   (js "body", JStr req.(raw_body));
   (js "response_status",
      JNum (if hasResponseParams
            then match pp.(responseStatus) with Some n => n | None => 0 end
            else 200));
   (js "parsed_response_status", opt_num pp.(responseStatus));
   (js "parsed_response_type", opt_str pp.(responseType));
   (js "parsed_forward_url", opt_str pp.(forwardUrl));
   (js "full_body", JBool pp.(fullBody));
   (js "tag", opt_str pp.(tag));
   (js "forward_response_status", JNull);
   (js "forward_response_headers", JNull);
   (js "forward_response_body", JNull)].

Definition bad_request (message : jsstr) : response :=
  {| status := 400;
     res_headers := [(js "Content-Type", js "application/json; charset=utf-8")];
     res_body := BJson (JObj [(js "ok", JBool false);
                              (js "error", JStr (js "Invalid webhook URL"));
                              (js "message", JStr message);
                              (js "status", JNum 400)]) |}.

Definition internal_error (message : jsstr) : response :=
  {| status := 500;
     res_headers := [(js "Content-Type", js "application/json; charset=utf-8")];
     res_body := BJson (JObj [(js "ok", JBool false);
                              (js "error", JStr (js "Internal Server Error"));
                              (js "message", JStr message);
                              (js "status", JNum 500)]) |}.

Section Handler.

Variable URL_protocol : jsstr -> option jsstr.

(** [param0] is [req.params[0]]. The result is the detached background
    task, if one was started. *)
Definition webhook_handler (E : env) (param0 : jsstr) (req : request)
  : M (option (M unit)) :=
  let fullPath := js "/webhook/" ++ param0 in
  match parseWebhookPath URL_protocol fullPath with
  | Throw msg => respond (internal_error msg) ;;; ret None   (* outer catch *)
  | Normal pp =>
      match pp.(error), pp.(id) with
      | Some ((_ :: _) as e), _ => respond (bad_request e) ;;; ret None
      | _, Some ((_ :: _) as i) =>
          let rawBody := req.(raw_body) in
          record (ELookup i) ;;;
          let hasResponseParams :=
            match pp.(responseStatus), pp.(responseType) with
            | Some _, Some _ => true | _, _ => false end in
          let hasForwardParams :=
            match pp.(forwardUrl) with Some _ => true | None => false end in
          let rid := E.(new_rid) in
          let entry := request_entry pp i rid req hasResponseParams in
          saved <- saveRequest E entry ;;
          (if saved then emitRequestEvent i (js "request:new") rid else ret tt) ;;;
          match pp.(responseStatus), pp.(responseType), pp.(forwardUrl) with
          | Some st, Some ty, Some url =>
              (* hasResponseParams && hasForwardParams *)
              sendImmediateResponse st ty i req.(req_method) rawBody ;;;
              task <- forwardRequestInBackground E entry url req rawBody pp.(fullBody) ;;
              ret (Some task)
          | _, _, Some url =>
              (* hasForwardParams && !hasResponseParams *)
              forwardRequestAndRespond E entry url req rawBody pp.(fullBody) ;;;
              ret None
          | Some st, Some ty, None =>
              (* hasResponseParams && !hasForwardParams *)
              sendImmediateResponse st ty i req.(req_method) rawBody ;;;
              ret None
          | _, _, None =>
              sendImmediateResponse 200 (js "json") i req.(req_method) rawBody ;;;
              ret None
          end
      | _, _ =>
          respond (bad_request (match pp.(error) with
                                | Some ((_ :: _) as e) => e
                                | _ => js "Invalid webhook URL format" end)) ;;;
          ret None
      end
  end.

(** The request handled, then its background task (if any) run to
    completion once the upstream call settles. *)
Definition run_request (E : env) (param0 : jsstr) (req : request) (w : world) : world :=
  let (task, w1) := webhook_handler E param0 req w in
  match task with
  | Some t => snd (t w1)
  | None => w1
  end.

End Handler.

End Server.

(* ------------------------------------------------------------------ *)
(** ** Views used to state the properties *)

Module Views.
Import Parser Server.

(** [paramString] of a path, as [parseWebhookPath] computes it *)
Definition param_string (path : jsstr) : jsstr :=
  snd (split_id (strip_webhook_prefix path)).

(** the id segment of a path, before sanitization *)
Definition raw_id (path : jsstr) : jsstr :=
  fst (split_id (strip_webhook_prefix path)).

(** [new URL(u)] succeeds with protocol [http:] or [https:] *)
Definition accepted (URL_protocol : jsstr -> option jsstr) (u : jsstr) : bool :=
  match URL_protocol u with Some p => http_protocol p | None => false end.

Definition error_nonempty (d : DirectiveSet) : Prop :=
  exists c e, d.(error) = Some (c :: e).

(** the stored record of an exchange *)
Definition find_record (rid : jsstr) (w : world) : option object :=
  find (has_rid rid) w.(store).

Definition field (o : option object) (k : string) : option json :=
  match o with Some r => obj_get r (js k) | None => None end.

(** the client responses among a list of events *)
Fixpoint responses (ev : list event) : list response :=
  match ev with
  | [] => []
  | ERespond r :: ev' => r :: responses ev'
  | _ :: ev' => responses ev'
  end.

Definition is_forward (e : event) : bool :=
  match e with EForward _ _ => true | _ => false end.

(** the number of UTF-8 bytes of a text: [Buffer.byteLength] *)
Definition utf8_unit_bytes (c : Z) : Z :=
  if c <? 128 then 1
  else if c <? 2048 then 2
  else if (55296 <=? c) && (c <=? 57343) then 2   (* half of a 4-byte pair *)
  else 3.

Definition utf8_byte_length (s : jsstr) : Z :=
  fold_right (fun c n => utf8_unit_bytes c + n) 0 s.

(** [hasResponseParams] *)
Definition has_response (d : DirectiveSet) : bool :=
  match d.(responseStatus), d.(responseType) with Some _, Some _ => true | _, _ => false end.

(** the [requestEntry] the handler records *)
Definition entry_of (E : env) (d : DirectiveSet) (i : jsstr) (req : request) : object :=
  request_entry d i E.(new_rid) req (has_response d).

(** the world once the handler has looked up the endpoint, saved the
    exchange and sent the created notification (when the save resolved) *)
Definition after_save (E : env) (d : DirectiveSet) (i : jsstr) (req : request)
  (w : world) : world :=
  if E.(save_ok)
  then {| store := if E.(save_stored) then w.(store) ++ [entry_of E d i req]
                   else w.(store);
          trace := w.(trace) ++ [ELookup i; ESaved E.(new_rid);
                                 EEmit i (js "request:new") E.(new_rid)] |}
  else {| store := w.(store); trace := w.(trace) ++ [ELookup i] |}.

(** a computation that only appends to the event trace *)
Definition grows {A} (m : M A) : Prop :=
  forall w, exists r, (snd (m w)).(trace) = w.(trace) ++ r.

(** a [DirectiveSet.error] that is [null] or a nonempty string *)
Definition error_ok (e : option jsstr) : Prop :=
  e = None \/ exists c e', e = Some (c :: e').

(** the three decimal digits of [n], zero-padded *)
Definition pad3 (n : Z) : jsstr :=
  [48 + n / 100; 48 + (n / 10) mod 10; 48 + n mod 10].

(** a computation that appends [n] responses to the trace *)
Definition answers {A} (n : nat) (m : M A) : Prop :=
  forall w, exists r, (snd (m w)).(trace) = w.(trace) ++ r /\
                      List.length (responses r) = n.

(** a computation whose store effect preserves [Q] *)
Definition keeps {A} (Q : list object -> Prop) (m : M A) : Prop :=
  forall w, Q w.(store) -> Q (snd (m w)).(store).

End Views.

(* ------------------------------------------------------------------ *)
(** ** Sample inputs *)

Module Samples.
Import Parser Server.

Definition c6_url : jsstr := js "https://a.b/c?x=1#y".

(** [req.params[0]] for [/webhook/abc/res:201json/fwd:$$https://a.b/c?x=1#y$$] *)
Definition both_param : jsstr := js "abc/res:201json/fwd:$$https://a.b/c?x=1#y$$".

Definition both_directives : DirectiveSet :=
  {| id := Some (js "abc"); responseStatus := Some 201; responseType := Some (js "json");
     forwardUrl := Some c6_url; fullBody := false; tag := None; error := None |}.

(** [req.params[0]] for [/webhook/abc/fwd:$$https://a.b/c?x=1#y$$] *)
Definition fwd_param : jsstr := js "abc/fwd:$$https://a.b/c?x=1#y$$".

Definition fwd_directives : DirectiveSet :=
  {| id := Some (js "abc"); responseStatus := None; responseType := None;
     forwardUrl := Some c6_url; fullBody := false; tag := None; error := None |}.

Definition sample_req : request :=
  {| req_method := js "POST"; req_headers := [(js "content-type", js "text/plain")];
     raw_body := js "hi" |}.

Definition sample_env (saved : bool) (o : axios_config -> axios_outcome) : env :=
  {| save_ok := saved; update_ok := true; save_stored := true; update_stored := true;
     upstream := o; new_rid := js "r1" |}.

Definition empty_world : world := {| store := []; trace := [] |}.

Definition sample_entry : object :=
  [(js "webhook_id", JStr (js "abc")); (js "rid", JStr (js "r1"));
   (js "method", JStr (js "POST"))].

(** a world holding the exchange [r1] *)
Definition stored_world : world := {| store := [sample_entry]; trace := [] |}.

Definition text_headers : headers := [(js "content-type", js "text/plain")].

(** 1500 ASCII characters *)
Definition long_ascii : jsstr := repeat 120 1500.

(** 600 times U+00E9: 600 code units, 1200 UTF-8 bytes *)
Definition e_acute_600 : jsstr := repeat 233 600.

End Samples.

(* ------------------------------------------------------------------ *)
(** ** Labels of [POST /webhooks] *)

Module Labels.
Import Parser Server.


(** [s.trimStart()] and [s.trimEnd()]: WhiteSpace and LineTerminator *)
Fixpoint trim_start (s : jsstr) : jsstr :=
  match s with
  | [] => []
  | c :: s' => if is_space c then trim_start s' else s
  end.

Definition trim_end (s : jsstr) : jsstr := rev (trim_start (rev s)).

(** [s.trim()] *)
Definition trim (s : jsstr) : jsstr := trim_end (trim_start s).

(** [s.replace(/[^A-Za-z0-9 _-]/g, ' ')] *)
Definition replace_disallowed (s : jsstr) : jsstr :=
  map (fun c => if is_id_char c || (c =? 32) then c else 32) s.

(** [s.replace(/\s+/g, ' ')]; [in_run] is set inside a run already
    replaced *)
Fixpoint collapse_spaces (in_run : bool) (s : jsstr) : jsstr :=
  match s with
  | [] => []
  | c :: s' =>
      if is_space c then
        if in_run then collapse_spaces true s' else 32 :: collapse_spaces true s'
      else c :: collapse_spaces false s'
  end.

(** [s.split(' ')] *)
Fixpoint split_space (s : jsstr) : list jsstr :=
  match s with
  | [] => [[]]
  | c :: s' =>
      match split_space s' with
      | f :: fs => if c =? 32 then [] :: f :: fs else (c :: f) :: fs
      | [] => [[c]]
      end
  end.

(** [sanitizeLabelInput] on a string *)
Definition sanitizeLabelInput (rawLabel : jsstr) : jsstr :=
  match rawLabel with
  | [] => []
  | _ =>
      let replaced := replace_disallowed rawLabel in
      trim (collapse_spaces false replaced)
  end.

(** [getNextLabel(existingWebhooks)], by the number of webhooks *)
Definition getNextLabel (count : nat) : jsstr :=
  js "URL " ++ Z_to_str (Z.of_nat count + 1).

(** [webhookLabel] in [POST /webhooks], from [req.body.label] ([None] is
    [undefined]); a truthy label that is not a string has no [trim] *)
Definition webhook_label (count : nat) (label : option json) : completion jsstr :=
  let default := getNextLabel count in
  match label with
  | None | Some JNull | Some (JBool false) | Some (JNum 0) | Some (JStr []) =>
      Normal default
  | Some (JStr l) =>
      match trim l with
      | [] => Normal default
      | _ =>
          let cleaned := sanitizeLabelInput (trim l) in
          match cleaned with
          | [] => Normal default
          | _ =>
              match filter (fun t => match t with [] => false | _ => true end)
                      (split_space cleaned) with
              | (_ :: _) as t :: _ => Normal t
              | _ => Normal cleaned
              end
          end
      end
  | Some _ => Throw (js "label.trim is not a function")
  end.

(** views of labels *)

(** drop the characters before the first id character *)
Fixpoint skip_non_id (s : jsstr) : jsstr :=
  match s with
  | [] => []
  | c :: s' => if is_id_char c then s else skip_non_id s'
  end.

(** the first maximal run of [[A-Za-z0-9_-]] characters *)
Definition first_id_run (s : jsstr) : jsstr := take_while is_id_char (skip_non_id s).

(** the characters [sanitizeLabelInput] keeps: [[A-Za-z0-9 _-]] *)
Definition label_char (c : Z) : bool := is_id_char c || (c =? 32).

(** [Boolean] on a string *)
Definition nonempty (t : jsstr) : bool := match t with [] => false | _ => true end.

End Labels.

(* ------------------------------------------------------------------ *)
(** ** The file storage ([storage/<id>.json]) *)

Module FileStore.
Import Parser Server.
Import Labels.

Set Warnings "-register-all".

(** JavaScript values as the file-storage functions see them: JSON data
    and [Date] objects (by their ISO text). *)
Inductive value : Type :=
| VNull
| VBool (b : bool)
| VNum (n : Z)
| VStr (s : jsstr)
| VDate (iso : jsstr)
| VArr (items : list value)
| VObj (fields : list (jsstr * value)).

Definition fobject := list (jsstr * value).

(** [JSON.parse(JSON.stringify(v))]: a [Date] becomes its ISO text *)
Fixpoint to_json (v : value) : value :=
  match v with
  | VDate iso => VStr iso
  | VArr l => VArr (map to_json l)
  | VObj o => VObj (map (fun kv => (fst kv, to_json (snd kv))) o)
  | _ => v
  end.

(** JavaScript truthiness *)
Definition truthy (v : value) : bool :=
  match v with
  | VNull => false
  | VBool b => b
  | VNum n => negb (n =? 0)
  | VStr s => match s with [] => false | _ => true end
  | _ => true
  end.

Definition opt_truthy (v : option value) : bool :=
  match v with Some x => truthy x | None => false end.

(** [v.key] on a parsed value: only objects have data properties *)
Definition get (v : value) (k : jsstr) : option value :=
  match v with VObj o => obj_get o k | _ => None end.

Definition is_array (v : option value) : bool :=
  match v with Some (VArr _) => true | _ => false end.

Section Store.

(** [String(d)] of a [Date] (it depends on the host's time zone) *)
Variable date_string : jsstr -> jsstr.

Fixpoint join_comma (l : list jsstr) : jsstr :=
  match l with
  | [] => []
  | [x] => x
  | x :: l' => x ++ [44] ++ join_comma l'
  end.

(** [String(v)], and ["undefined"] for a missing property *)
Fixpoint string_of (v : value) : jsstr :=
  match v with
  | VNull => js "null"
  | VBool true => js "true"
  | VBool false => js "false"
  | VNum n => Z_to_str n
  | VStr s => s
  | VDate iso => date_string iso
  | VArr l => join_comma (map (fun x => match x with VNull => [] | _ => string_of x end) l)
  | VObj _ => js "[object Object]"
  end.

Definition key_of (v : option value) : jsstr :=
  match v with Some x => string_of x | None => js "undefined" end.

(** The [storage/] directory: file name to its content ([None] for text
    [JSON.parse] rejects); [writable] says whether writes and unlinks
    succeed. *)
Record fs := {
  files : list (jsstr * option value);
  writable : bool
}.

(** [webhookFilePath], relative to [storageDir] (ids from [sanitizeId]
    have no ['/']) *)
Definition webhookFilePath (id : jsstr) : jsstr := id ++ js ".json".

(** [readWebhookFile]: [None] is [null] (missing or unparsable file) *)
Definition readWebhookFile (id : jsstr) (st : fs) : option value :=
  match obj_get st.(files) (webhookFilePath id) with
  | Some (Some v) => Some v
  | _ => None
  end.

(** [writeWebhookFile]: a failed write is only logged *)
Definition writeWebhookFile (id : jsstr) (data : value) (st : fs) : fs :=
  if st.(writable)
  then {| files := obj_set st.(files) (webhookFilePath id) (Some (to_json data));
          writable := st.(writable) |}
  else st.

Definition findWebhookById (id : jsstr) (st : fs) : option value :=
  match readWebhookFile id st with
  | Some parsed =>
      if truthy parsed && opt_truthy (get parsed (js "webhook")) then get parsed (js "webhook")
      else None
  | None => None
  end.

(** [(parsed && Array.isArray(parsed.requests)) ? parsed.requests : []],
    shared by [findRequests] and [countRequests] *)
Definition requests_of (parsed : option value) : list value :=
  match parsed with
  | Some p =>
      if truthy p then
        match get p (js "requests") with Some (VArr l) => l | _ => [] end
      else []
  | None => []
  end.

Definition countRequests (webhookId : jsstr) (st : fs) : nat :=
  List.length (requests_of (readWebhookFile webhookId st)).

(** [saveWebhook] in file mode; [now] is [new Date().toISOString()] *)
Definition saveWebhook (now : jsstr) (webhookData : fobject) (st : fs) : fobject * fs :=
  let webhook :=
    if opt_truthy (obj_get webhookData (js "created_at")) then webhookData
    else obj_set webhookData (js "created_at") (VStr now) in
  let record := VObj [(js "webhook", VObj webhook); (js "requests", VArr [])] in
  (webhook, writeWebhookFile (key_of (obj_get webhook (js "id"))) record st).

(** [deleteWebhook]: [fs.unlink], errors ignored *)
Definition deleteWebhook (id : jsstr) (st : fs) : fs :=
  if st.(writable)
  then {| files := obj_delete st.(files) (webhookFilePath id); writable := st.(writable) |}
  else st.

(** [deleteRequests]: [parsed.requests = []] (on a primitive, sloppy mode
    ignores it; on an array, [JSON.stringify] drops it) *)
Definition deleteRequests (webhookId : jsstr) (st : fs) : fs :=
  match readWebhookFile webhookId st with
  | Some parsed =>
      if truthy parsed then
        let parsed' := match parsed with
                       | VObj o => VObj (obj_set o (js "requests") (VArr []))
                       | _ => parsed
                       end in
        writeWebhookFile webhookId parsed' st
      else st
  | None => st
  end.

(** the record [saveRequest] writes for a missing webhook file
    ([id: undefined] is dropped by [JSON.stringify]) *)
Definition placeholder (request : fobject) (wid : option value) (key now : jsstr) : value :=
  VObj [(js "webhook",
         VObj (match wid with Some v => [(js "id", v)] | None => [] end ++
               [(js "label", VStr (js "URL " ++ key)); (js "status", VNum 200);
                (js "content_type", VStr (js "text/html"));
                (js "destination", VStr []); (js "tags", VArr []);
                (js "created_at", VStr now)]));
        (js "requests", VArr [VObj request])].

(** [saveRequest] in file mode: [now_time] and [now_created] are the two
    [new Date().toISOString()] it may evaluate *)
Definition normalize_time (now_time : jsstr) (requestData : fobject) : fobject :=
  match obj_get requestData (js "time") with
  | Some (VDate iso) => obj_set requestData (js "time") (VStr iso)
  | t => if opt_truthy t then requestData
         else obj_set requestData (js "time") (VStr now_time)
  end.

Definition saveRequest (now_time now_created : jsstr) (requestData : fobject) (st : fs)
  : completion fobject * fs :=
  let request := normalize_time now_time requestData in
  let wid := obj_get request (js "webhook_id") in
  let key := key_of wid in
  match readWebhookFile key st with
  | Some parsed =>
      if truthy parsed then
        match parsed with
        | VObj o =>
            let cur := obj_get o (js "requests") in
            let reqs := if opt_truthy cur then cur else Some (VArr []) in
            match reqs with
            | Some (VArr l) =>
                (Normal request,
                 writeWebhookFile key
                   (VObj (obj_set o (js "requests") (VArr (l ++ [VObj request])))) st)
            | _ => (Throw (js "parsed.requests.push is not a function"), st)
            end
        | VArr l => (Normal request, writeWebhookFile key (VArr l) st)
        | _ => (Throw (js "Cannot read properties of undefined (reading 'push')"), st)
        end
      else (Normal request, writeWebhookFile key (placeholder request wid key now_created) st)
  | None => (Normal request, writeWebhookFile key (placeholder request wid key now_created) st)
  end.

(** [DELETE /webhooks/:id] in file mode: the status and the JSON body *)
Definition delete_route (param : jsstr) (st : fs) : (Z * jsstr) * fs :=
  match sanitizeId param with
  | None => ((400, js "{" ++ [34] ++ js "error" ++ [34] ++ js ":" ++ [34] ++
                   js "Invalid webhook ID" ++ [34] ++ js "}"), st)
  | Some id =>
      ((200, js "{" ++ [34] ++ js "success" ++ [34] ++ js ":true}"),
       deleteRequests id (deleteWebhook id st))
  end.

(** the unique-id loop of [POST /webhooks]: [gen i] is the result of the
    [i]-th call of [generateId] *)
Fixpoint pick_id (gen : nat -> jsstr) (tries : nat) (fuel : nat) (st : fs) : jsstr :=
  match fuel with
  | O => gen tries
  | S f =>
      match findWebhookById (gen tries) st with
      | None => gen tries
      | Some _ => pick_id gen (S tries) f st
      end
  end.

Definition unique_id (gen : nat -> jsstr) (st : fs) : jsstr := pick_id gen 0 5 st.

(** [s.endsWith(suffix)] *)
Definition ends_with (s suffix : jsstr) : bool :=
  (List.length suffix <=? List.length s)%nat &&
  str_eqb (skipn (List.length s - List.length suffix) s) suffix.

(** [listWebhookFiles]: the [.json] entries of the directory *)
Definition listWebhookFiles (st : fs) : list jsstr :=
  filter (fun f => ends_with f (js ".json")) (map fst st.(files)).

(** the webhooks [findWebhooks] collects, before its sort *)
Definition stored_webhooks (st : fs) : list value :=
  flat_map (fun f =>
              match obj_get st.(files) f with
              | Some (Some parsed) =>
                  if truthy parsed then
                    match get parsed (js "webhook") with
                    | Some w => if truthy w then [w] else []
                    | None => []
                    end
                  else []
              | _ => []
              end) (listWebhookFiles st).

(** [findWebhooks().length]: the sort keeps the length *)
Definition webhook_count (st : fs) : nat := List.length (stored_webhooks st).

(** [POST /webhooks] in file mode: the status ([302] is the redirect to
    [/]) and the storage after it; [gen i] is the [i]-th [generateId()] *)
Definition create_route (gen : nat -> jsstr) (now : jsstr) (label : option json) (st : fs)
  : Z * fs :=
  let id := unique_id gen st in
  match webhook_label (webhook_count st) label with
  | Throw _ => (500, st)
  | Normal webhookLabel =>
      (302, snd (saveWebhook now [(js "id", VStr id); (js "label", VStr webhookLabel)] st))
  end.

(** [parsed.requests.findIndex(r => r.rid === rid)]; reading [rid] of
    a [null] element throws *)
Inductive scan : Type :=
| Found (idx : nat) (r : fobject)
| Missing
| Crash.

Fixpoint find_rid (rid : jsstr) (l : list value) : scan :=
  match l with
  | [] => Missing
  | VNull :: _ => Crash
  | VObj r :: l' =>
      match obj_get r (js "rid") with
      | Some (VStr s) => if str_eqb s rid then Found 0 r else
                           match find_rid rid l' with Found i r' => Found (S i) r' | x => x end
      | _ => match find_rid rid l' with Found i r' => Found (S i) r' | x => x end
      end
  | _ :: l' => match find_rid rid l' with Found i r' => Found (S i) r' | x => x end
  end.

(** the loop of [updateRequest] over the listed files: a file that fails
    to parse, has no requests array, throws in the search or fails to be
    written is skipped *)
Fixpoint update_files (rid : jsstr) (updateData : fobject) (fl : list jsstr) (st : fs) : fs :=
  match fl with
  | [] => st
  | f :: rest =>
      match obj_get st.(files) f with
      | Some (Some (VObj o)) =>
          match obj_get o (js "requests") with
          | Some (VArr l) =>
              match find_rid rid l with
              | Found idx r =>
                  if st.(writable) then
                    {| files := obj_set st.(files) f
                         (Some (to_json (VObj (obj_set o (js "requests")
                            (VArr (firstn idx l ++ VObj (obj_merge r updateData) :: skipn (S idx) l))))));
                       writable := st.(writable) |}
                  else update_files rid updateData rest st
              | _ => update_files rid updateData rest st
              end
          | _ => update_files rid updateData rest st
          end
      | _ => update_files rid updateData rest st
      end
  end.

(** [updateRequest] in file mode *)
Definition updateRequest (rid : jsstr) (updateData : fobject) (st : fs) : fs :=
  update_files rid updateData (listWebhookFiles st) st.

End Store.

End FileStore.

(* ------------------------------------------------------------------ *)
(** ** Sample storage states *)

Module FileSamples.
Import Parser Server FileStore.

(** [String(d)] for the samples *)
Definition ds0 (iso : jsstr) : jsstr := iso.

Definition t0 : jsstr := js "2026-01-01T00:00:00.000Z".

(** the file [abc.json]: webhook [abc] with one request *)
Definition file_abc : fobject :=
  [(js "webhook", VObj [(js "id", VStr (js "abc")); (js "label", VStr (js "A"))]);
   (js "requests", VArr [VObj [(js "rid", VStr (js "r0"))]])].

Definition st_abc : fs := {| files := [(js "abc.json", Some (VObj file_abc))]; writable := true |}.

Definition st_new : fs := {| files := []; writable := true |}.

Definition st_ro : fs := {| files := []; writable := false |}.

(** a request of webhook [abc], timed by a [Date] *)
Definition req_abc : fobject :=
  [(js "webhook_id", VStr (js "abc")); (js "rid", VStr (js "r1")); (js "time", VDate t0)].

(** a [generateId] that keeps returning [abc] *)
Definition gen_abc (i : nat) : jsstr := js "abc".

End FileSamples.

(* ================================================================== *)
(** * Properties *)

Module Props.
Import Parser Server Views Samples.

(** ** Generic facts *)

Lemma str_eqb_eq : forall a b, str_eqb a b = true <-> a = b.
Proof.
  induction a as [|x a IH]; destruct b as [|y b]; simpl; split; intro H;
    try discriminate; try reflexivity.
  - apply andb_true_iff in H as [H1 H2]. apply Z.eqb_eq in H1.
    apply IH in H2. subst. reflexivity.
  - inversion H; subst. rewrite Z.eqb_refl. simpl. apply IH. reflexivity.
Qed.

Lemma str_eqb_refl : forall a, str_eqb a a = true.
Proof. intro a. apply str_eqb_eq. reflexivity. Qed.

(** ** The parser's stages and the fields they touch *)

Lemma parse_res_other : forall ps r,
  (parse_res ps r).(forwardUrl) = r.(forwardUrl) /\
  (parse_res ps r).(id) = r.(id).
Proof.
  intros ps r. unfold parse_res.
  destruct (seg_match res_at ps) as [[? g2]|]; [|auto].
  destruct (res_param_match _) as [[? ?]|]; simpl; auto.
Qed.

Lemma parse_res_pair : forall ps r,
  (r.(responseStatus) = None <-> r.(responseType) = None) ->
  ((parse_res ps r).(responseStatus) = None <-> (parse_res ps r).(responseType) = None).
Proof.
  intros ps r H. unfold parse_res.
  destruct (seg_match res_at ps) as [[? g2]|]; [|auto].
  destruct (res_param_match _) as [[? ?]|]; simpl; auto.
  split; discriminate.
Qed.

Lemma parse_fullbody_fields : forall ps r,
  (parse_fullbody ps r).(responseStatus) = r.(responseStatus) /\
  (parse_fullbody ps r).(responseType) = r.(responseType) /\
  (parse_fullbody ps r).(forwardUrl) = r.(forwardUrl) /\
  (parse_fullbody ps r).(id) = r.(id) /\
  (parse_fullbody ps r).(error) = r.(error).
Proof.
  intros ps r. unfold parse_fullbody.
  destruct (seg_match fullbody_at ps); simpl; auto.
Qed.

Lemma parse_tag_fields : forall ps r r',
  parse_tag ps r = Normal r' ->
  r'.(responseStatus) = r.(responseStatus) /\
  r'.(responseType) = r.(responseType) /\
  r'.(forwardUrl) = r.(forwardUrl) /\
  r'.(id) = r.(id) /\
  r'.(error) = r.(error) /\
  r'.(fullBody) = r.(fullBody).
Proof.
  intros ps r r' H. unfold parse_tag in H.
  destruct (seg_match tag_at ps) as [[? v]|].
  - destruct (URI.decodeURIComponent v); inversion H; subst; simpl; auto 10.
  - inversion H; subst; auto 10.
Qed.

Lemma check_forward_fields : forall U r u,
  (check_forward U r u).(responseStatus) = r.(responseStatus) /\
  (check_forward U r u).(responseType) = r.(responseType) /\
  (check_forward U r u).(id) = r.(id).
Proof.
  intros U r u. unfold check_forward.
  destruct (U u) as [p|]; [destruct (http_protocol p)|]; simpl; auto.
Qed.

Lemma parse_fwd_fields : forall U ps r,
  (parse_fwd U ps r).(responseStatus) = r.(responseStatus) /\
  (parse_fwd U ps r).(responseType) = r.(responseType) /\
  (parse_fwd U ps r).(id) = r.(id).
Proof.
  intros U ps r. unfold parse_fwd.
  destruct (seg_match fwd_bounded_at ps) as [[? u]|];
    [apply check_forward_fields|].
  destruct (seg_match fwd_legacy_at ps) as [[? u]|];
    [apply check_forward_fields|auto].
Qed.

(** The shape of every value [parseWebhookPath] returns. *)
Lemma parse_cases : forall U p d,
  parseWebhookPath U p = Normal d ->
  d = early_error (js "Missing webhook ID") \/
  d = early_error (js "Invalid webhook ID") \/
  exists i, sanitizeId (raw_id p) = Some i /\
    let r0 := {| id := Some i; responseStatus := None; responseType := None;
                 forwardUrl := None; fullBody := false; tag := None;
                 error := None |} in
    ((param_string p = [] /\ d = r0) \/
     (param_string p <> [] /\
      exists r3, parse_tag (param_string p)
                   (parse_fullbody (param_string p) (parse_res (param_string p) r0))
                 = Normal r3 /\ d = parse_fwd U (param_string p) r3)).
Proof.
  intros U p d H. unfold parseWebhookPath, raw_id, param_string in *.
  destruct (strip_webhook_prefix p) as [|c cl] eqn:Hc.
  - inversion H; auto.
  - destruct (split_id (c :: cl)) as [rawId ps] eqn:Hs. simpl.
    destruct (sanitizeId rawId) as [i|] eqn:Hi.
    + right; right. exists i. split; [reflexivity|].
      destruct ps as [|x ps'].
      * left. inversion H; auto.
      * right. split; [discriminate|].
        destruct (parse_tag _ _) as [r3|e] eqn:Ht; [|discriminate].
        exists r3. inversion H; auto.
    + inversion H; auto.
Qed.

Ltac decode_parse H :=
  apply parse_cases in H;
  destruct H as [H|[H|[i [Hi [[Hps H]|[Hps [r3 [Ht H]]]]]]]]; subst.

(** ** C9 *)

(** C9: every directive set [parseWebhookPath] returns has
    [responseStatus] and [responseType] both present or both absent. *)
Theorem parse_response_clause_paired : forall U p d,
  parseWebhookPath U p = Normal d ->
  (d.(responseStatus) = None <-> d.(responseType) = None).
Proof.
  intros U p d H. decode_parse H; simpl; try tauto.
  destruct (parse_fwd_fields U (param_string p) r3) as [-> [-> _]].
  apply parse_tag_fields in Ht as [-> [-> _]].
  destruct (parse_fullbody_fields (param_string p) (parse_res (param_string p)
    {| id := Some i; responseStatus := None; responseType := None;
       forwardUrl := None; fullBody := false; tag := None; error := None |}))
    as [-> [-> _]].
  apply parse_res_pair. simpl. tauto.
Qed.

(** ** C1 and C4: concrete runs of the parser *)

(** C1: [parseWebhookPath] throws on a [tag:] value that is a malformed
    percent-encoding: [decodeURIComponent("%ZZ")] raises [URIError], which
    the handler's outer [catch] turns into a 500. *)
Theorem parse_tag_malformed_throws : forall U E req w,
  parseWebhookPath U (js "/webhook/abc/tag:%ZZ") = Throw (js "URI malformed") /\
  webhook_handler U E (js "abc/tag:%ZZ") req w =
    (None, {| store := w.(store);
              trace := w.(trace) ++ [ERespond (internal_error (js "URI malformed"))] |}).
Proof. intros U E req w. split; reflexivity. Qed.

(** C4: on [/webhook/abc/res:404xml] the parser returns a directive set
    with no error: the [res:] pattern already demands a valid type, so the
    segment is not seen at all and the ["Invalid res parameter format"]
    branch is never reached. *)
Theorem parse_res_bad_type_no_error : forall U,
  parseWebhookPath U (js "/webhook/abc/res:404xml") =
    Normal {| id := Some (js "abc"); responseStatus := None; responseType := None;
              forwardUrl := None; fullBody := false; tag := None; error := None |}.
Proof. intro U. reflexivity. Qed.

(** ** Splitting a path into its id and [paramString] *)

Lemma strip_prefix_app : forall p x, strip_prefix p (p ++ x) = Some x.
Proof. induction p as [|c p IH]; intro x; simpl; [|rewrite Z.eqb_refl]; auto. Qed.

Lemma strip_webhook_prefix_app : forall x,
  strip_webhook_prefix (js "/webhook/" ++ x) = x.
Proof. intro x. unfold strip_webhook_prefix. rewrite strip_prefix_app. reflexivity. Qed.

Lemma index_slash_app : forall l r n, ~ In 47 l ->
  index_of_from [47] (l ++ 47 :: r) n = Some (n + List.length l)%nat.
Proof.
  induction l as [|a l IH]; intros r n Hl; cbn [app index_of_from].
  - unfold starts_with. simpl. f_equal. lia.
  - unfold starts_with at 1. cbn [strip_prefix].
    assert (Ha : (47 =? a) = false) by (apply Z.eqb_neq; intro Heq; apply Hl; left; lia).
    rewrite Ha. rewrite IH by (intro; apply Hl; right; auto). cbn [List.length]. f_equal. lia.
Qed.

Lemma index_slash_none : forall l n, ~ In 47 l -> index_of_from [47] l n = None.
Proof.
  induction l as [|a l IH]; intros n Hl; cbn [index_of_from]; [reflexivity|].
  unfold starts_with at 1. cbn [strip_prefix].
  assert (Ha : (47 =? a) = false) by (apply Z.eqb_neq; intro Heq; apply Hl; left; lia).
  rewrite Ha. apply IH. intro; apply Hl; right; auto.
Qed.

Lemma firstn_length_app : forall (l x : jsstr), firstn (List.length l) (l ++ x) = l.
Proof. induction l as [|a l IH]; intro x; simpl; [reflexivity|]. rewrite IH. reflexivity. Qed.

Lemma skipn_length_app : forall (l r : jsstr) c,
  skipn (S (List.length l)) (l ++ c :: r) = r.
Proof. induction l as [|a l IH]; intros r c; simpl; [reflexivity|]. apply IH. Qed.

Lemma split_id_slash : forall l r, ~ In 47 l ->
  split_id (l ++ 47 :: r) = (l, r).
Proof.
  intros l r Hl. unfold split_id, indexOf.
  rewrite index_slash_app by exact Hl. simpl.
  assert (Hn : (Z.of_nat (List.length l) =? -1) = false) by (apply Z.eqb_neq; lia).
  rewrite Hn.
  assert (Hlen : len (l ++ 47 :: r) = Z.of_nat (List.length l) + 1 + Z.of_nat (List.length r))
    by (unfold len; rewrite length_app; simpl; lia).
  unfold substring_from, substring, clamp. rewrite Hlen.
  replace (Z.to_nat (Z.max 0 (Z.min 0 _))) with 0%nat by lia.
  replace (Z.to_nat (Z.max 0 (Z.min (Z.of_nat (List.length l)) _)))
    with (List.length l) by lia.
  replace (Z.to_nat (Z.max 0 (Z.min (Z.of_nat (List.length l) + 1) _)))
    with (S (List.length l)) by lia.
  replace (Z.to_nat (Z.max 0 (Z.min (Z.of_nat (List.length l) + 1
             + Z.of_nat (List.length r)) _)))
    with (S (List.length l + List.length r)) by lia.
  f_equal.
  - replace (Nat.max 0 (List.length l) - Nat.min 0 (List.length l))%nat
      with (List.length l) by lia.
    replace (Nat.min 0 (List.length l)) with 0%nat by lia.
    rewrite skipn_O. apply firstn_length_app.
  - rewrite Nat.min_l by lia. rewrite Nat.max_r by lia.
    replace (S (List.length l + List.length r) - S (List.length l))%nat
      with (List.length r) by lia.
    rewrite skipn_length_app. apply firstn_all.
Qed.

Lemma split_id_noslash : forall l, ~ In 47 l -> split_id l = (l, []).
Proof.
  intros l Hl. unfold split_id, indexOf. rewrite index_slash_none by exact Hl.
  reflexivity.
Qed.


Lemma take_while_noslash : forall l, ~ In 47 l ->
  take_while (fun c => negb (is_slash c)) l = l.
Proof.
  induction l as [|a l IH]; intros Hl; simpl; [reflexivity|].
  assert (Ha : is_slash a = false)
    by (apply Z.eqb_neq; intro Heq; apply Hl; left; lia).
  rewrite Ha. simpl. f_equal. apply IH. intro; apply Hl; right; auto.
Qed.



Lemma param_string_slash : forall l r, ~ In 47 l ->
  param_string (js "/webhook/" ++ l ++ 47 :: r) = r.
Proof.
  intros l r Hl. unfold param_string. rewrite strip_webhook_prefix_app.
  rewrite split_id_slash by exact Hl. reflexivity.
Qed.

Lemma raw_id_slash : forall l r, ~ In 47 l ->
  raw_id (js "/webhook/" ++ l ++ 47 :: r) = l.
Proof.
  intros l r Hl. unfold raw_id. rewrite strip_webhook_prefix_app.
  rewrite split_id_slash by exact Hl. reflexivity.
Qed.

(** [sanitizeId] is the filter, [null] when nothing is left *)
Lemma sanitizeId_filter : forall s,
  sanitizeId s = match filter is_id_char s with [] => None | l => Some l end.
Proof. intros [|c s]; [reflexivity|]. unfold sanitizeId. destruct (filter is_id_char (c :: s)); reflexivity. Qed.

(** ** The forward stage *)

Lemma initial_fields : forall ps i r,
  let r0 := {| id := Some i; responseStatus := None; responseType := None;
               forwardUrl := None; fullBody := false; tag := None;
               error := None |} in
  parse_tag ps (parse_fullbody ps (parse_res ps r0)) = Normal r ->
  r.(forwardUrl) = None /\ r.(id) = Some i.
Proof.
  intros ps i r r0 Ht. apply parse_tag_fields in Ht as [_ [_ [-> [-> _]]]].
  destruct (parse_fullbody_fields ps (parse_res ps r0)) as [_ [_ [-> [-> _]]]].
  destruct (parse_res_other ps r0) as [-> ->]. auto.
Qed.

Lemma check_forward_url : forall U r u,
  (check_forward U r u).(forwardUrl) = if accepted U u then Some u else r.(forwardUrl).
Proof.
  intros U r u. unfold check_forward, accepted.
  destruct (U u) as [p|]; [destruct (http_protocol p)|]; reflexivity.
Qed.


Lemma seg_match_nil : forall A (f : jsstr -> option A),
  f [] = None -> seg_match f [] = None.
Proof. intros A f H. unfold seg_match. rewrite H. reflexivity. Qed.

(** ** C5 *)



(** ** C6 *)

(** [parseWebhookPath] on [/webhook/<id>/<rest>] runs the four stages on
    [rest]. *)
Lemma parse_with_id : forall U rawId i rest,
  ~ In 47 rawId -> sanitizeId rawId = Some i -> rest <> [] ->
  parseWebhookPath U (js "/webhook/" ++ rawId ++ 47 :: rest) =
  match parse_tag rest (parse_fullbody rest (parse_res rest
          {| id := Some i; responseStatus := None; responseType := None;
             forwardUrl := None; fullBody := false; tag := None;
             error := None |})) with
  | Throw e => Throw e
  | Normal r3 => Normal (parse_fwd U rest r3)
  end.
Proof.
  intros U rawId i rest Hl Hi Hr. unfold parseWebhookPath.
  rewrite strip_webhook_prefix_app.
  destruct (rawId ++ 47 :: rest) as [|c t] eqn:E; [destruct rawId; discriminate|].
  assert (Hs : split_id (c :: t) = (rawId, rest))
    by (rewrite <- E; apply split_id_slash; exact Hl).
  cbv iota beta. rewrite Hs. cbv iota beta zeta. rewrite Hi.
  destruct rest as [|r rest]; [congruence|]. reflexivity.
Qed.

(** C6: with a URL constructor that accepts [https://a.b/c?x=1#y] as an
    [https:] URL, [/webhook/<id>/fwd:$$https://a.b/c?x=1#y$$/res:200json]
    and the same segments in the other order both give that forward URL
    and the clause (200, json); and whenever the bounded [fwd:$$...$$]
    pattern matches, the forward URL is the bounded one (or none, if it is
    rejected): the legacy form is not consulted. *)
Theorem parse_bounded_forward_with_res : forall U,
  U c6_url = Some (js "https:") ->
  (forall rawId i, ~ In 47 rawId -> sanitizeId rawId = Some i ->
     let expected :=
       {| id := Some i; responseStatus := Some 200; responseType := Some (js "json");
          forwardUrl := Some c6_url; fullBody := false; tag := None;
          error := None |} in
     parseWebhookPath U (js "/webhook/" ++ rawId
                          ++ js "/fwd:$$https://a.b/c?x=1#y$$/res:200json")
       = Normal expected /\
     parseWebhookPath U (js "/webhook/" ++ rawId
                          ++ js "/res:200json/fwd:$$https://a.b/c?x=1#y$$")
       = Normal expected) /\
  (forall p d g u, parseWebhookPath U p = Normal d -> d.(id) <> None ->
     seg_match fwd_bounded_at (param_string p) = Some (g, u) ->
     d.(forwardUrl) = if accepted U u then Some u else None).
Proof.
  intros U HU. split.
  - intros rawId i Hl Hi expected. split.
    + change (js "/fwd:$$https://a.b/c?x=1#y$$/res:200json")
        with (47 :: js "fwd:$$https://a.b/c?x=1#y$$/res:200json").
      rewrite (parse_with_id U rawId i) by (try exact Hl; try exact Hi; discriminate).
      match goal with |- context [parse_tag ?ps ?r] =>
        assert (E3 : parse_tag ps r = Normal
          {| id := Some i; responseStatus := Some 200; responseType := Some (js "json");
             forwardUrl := None; fullBody := false; tag := None; error := None |})
          by reflexivity end.
      rewrite E3. unfold parse_fwd.
      match goal with |- context [seg_match fwd_bounded_at ?ps] =>
        assert (E4 : seg_match fwd_bounded_at ps = Some ([], c6_url)) by reflexivity end.
      rewrite E4. unfold check_forward. rewrite HU. reflexivity.
    + change (js "/res:200json/fwd:$$https://a.b/c?x=1#y$$")
        with (47 :: js "res:200json/fwd:$$https://a.b/c?x=1#y$$").
      rewrite (parse_with_id U rawId i) by (try exact Hl; try exact Hi; discriminate).
      match goal with |- context [parse_tag ?ps ?r] =>
        assert (E3 : parse_tag ps r = Normal
          {| id := Some i; responseStatus := Some 200; responseType := Some (js "json");
             forwardUrl := None; fullBody := false; tag := None; error := None |})
          by reflexivity end.
      rewrite E3. unfold parse_fwd.
      match goal with |- context [seg_match fwd_bounded_at ?ps] =>
        assert (E4 : seg_match fwd_bounded_at ps = Some ([47], c6_url)) by reflexivity end.
      rewrite E4. unfold check_forward. rewrite HU. reflexivity.
  - intros p d g u H Hid Hb. decode_parse H; try (simpl in Hid; congruence).
    + rewrite Hps in Hb. discriminate.
    + apply initial_fields in Ht as [Hf _].
      unfold parse_fwd. rewrite Hb, check_forward_url, Hf.
      destruct (accepted U u); reflexivity.
Qed.

(** ** The handler and the forwarding helpers *)

Create HintDb grows.

Lemma grows_ret : forall A (a : A), grows (ret a).
Proof. intros A a w. exists []. rewrite app_nil_r. reflexivity. Qed.

Lemma grows_record : forall e, grows (record e).
Proof. intros e w. exists [e]. reflexivity. Qed.

Lemma grows_bind : forall A B (m : M A) (f : A -> M B),
  grows m -> (forall a, grows (f a)) -> grows (bind m f).
Proof.
  intros A B m f Hm Hf w. unfold bind.
  destruct (Hm w) as [r1 H1]. destruct (m w) as [a w'] eqn:Ew. simpl in H1.
  destruct (Hf a w') as [r2 H2]. exists (r1 ++ r2).
  rewrite H2, H1, app_assoc. reflexivity.
Qed.

Lemma grows_saveRequest : forall E entry, grows (saveRequest E entry).
Proof.
  intros E entry w. unfold saveRequest. destruct (save_ok E); simpl; eexists;
  [reflexivity | rewrite app_nil_r; reflexivity].
Qed.

Lemma grows_updateRequest : forall E rid patch, grows (updateRequest E rid patch).
Proof.
  intros E rid patch w. unfold updateRequest. destruct (update_ok E); simpl; eexists;
  [reflexivity | rewrite app_nil_r; reflexivity].
Qed.

Lemma grows_respond : forall r, grows (respond r).
Proof. intros r. apply grows_record. Qed.

#[local] Hint Resolve grows_ret grows_record grows_bind grows_saveRequest
  grows_updateRequest grows_respond : grows.

Lemma grows_update_and_emit : forall E entry patch, grows (update_and_emit E entry patch).
Proof.
  intros E entry patch. unfold update_and_emit, emitRequestEvent.
  apply grows_bind; [auto with grows|]. intros []; auto with grows.
Qed.

#[local] Hint Resolve grows_update_and_emit : grows.

Lemma grows_forwardRequestAndRespond : forall E entry url req b fb,
  grows (forwardRequestAndRespond E entry url req b fb).
Proof.
  intros. unfold forwardRequestAndRespond.
  apply grows_bind; [auto with grows|]. intros _.
  destruct (upstream E _); unfold respond; auto with grows.
Qed.

Lemma grows_forwardRequestInBackground : forall E entry url req b fb,
  grows (forwardRequestInBackground E entry url req b fb).
Proof. intros. unfold forwardRequestInBackground. auto with grows. Qed.

Lemma grows_background_task : forall E entry url req b fb w,
  grows (fst (forwardRequestInBackground E entry url req b fb w)).
Proof.
  intros. unfold forwardRequestInBackground, bind, record, ret. simpl.
  destruct (upstream E _); auto with grows.
Qed.

Lemma grows_sendImmediateResponse : forall st ty i m b,
  grows (sendImmediateResponse st ty i m b).
Proof. intros. apply grows_respond. Qed.

Lemma handler_ok : forall U E param0 req w pp i,
  parseWebhookPath U (js "/webhook/" ++ param0) = Normal pp ->
  pp.(error) = None -> pp.(id) = Some i -> i <> [] ->
  let b := req.(raw_body) in
  let m := req.(req_method) in
  let entry := entry_of E pp i req in
  webhook_handler U E param0 req w =
  (match pp.(responseStatus), pp.(responseType), pp.(forwardUrl) with
   | Some st, Some ty, Some url =>
       sendImmediateResponse st ty i m b ;;;
       task <- forwardRequestInBackground E entry url req b pp.(fullBody) ;;
       ret (Some task)
   | _, _, Some url =>
       forwardRequestAndRespond E entry url req b pp.(fullBody) ;;; ret None
   | Some st, Some ty, None => sendImmediateResponse st ty i m b ;;; ret None
   | _, _, None => sendImmediateResponse 200 (js "json") i m b ;;; ret None
   end) (after_save E pp i req w).
Proof.
  intros U E param0 req w pp i Hp He Hi Hn b m entry.
  unfold webhook_handler. rewrite Hp. rewrite He, Hi.
  destruct i as [|c t]; [congruence|].
  unfold bind at 1 2 3 4, record at 1, saveRequest, after_save, entry, entry_of, has_response.
  destruct (save_ok E); cbn -[forwardRequestAndRespond forwardRequestInBackground sendImmediateResponse];
  rewrite <- ?app_assoc; reflexivity.
Qed.



Lemma parse_ok_id : forall U p d j,
  parseWebhookPath U p = Normal d -> d.(error) = None -> d.(id) = Some j -> j <> [].
Proof.
  intros U p d j H He Hj. decode_parse H; try discriminate.
  - simpl in Hj. injection Hj as <-. rewrite sanitizeId_filter in Hi.
    destruct (filter is_id_char (raw_id p)); congruence.
  - destruct (parse_fwd_fields U (param_string p) r3) as [_ [_ Hid]].
    apply initial_fields in Ht as [_ Ht]. rewrite Hid, Ht in Hj. injection Hj as <-.
    rewrite sanitizeId_filter in Hi.
    destruct (filter is_id_char (raw_id p)); congruence.
Qed.

Lemma sync_forward_trace : forall E entry url req b fb w,
  exists post,
    (snd (forwardRequestAndRespond E entry url req b fb w)).(trace)
      = w.(trace) ++ EForward Synchronous (make_config url req b) :: post /\
    responses post = [forward_reply (upstream E (make_config url req b))
                        (webhook_id_of entry) (method_of entry)].
Proof.
  intros E entry url req b fb w.
  unfold forwardRequestAndRespond, update_and_emit, updateRequest, emitRequestEvent,
    respond, record, bind, ret.
  destruct (upstream E (make_config url req b)); destruct (update_ok E); cbn;
    rewrite <- ?app_assoc; eexists; split; reflexivity.
Qed.


#[local] Hint Resolve grows_forwardRequestAndRespond grows_forwardRequestInBackground
  grows_sendImmediateResponse : grows.

Lemma run_after : forall (D : M (option (M unit))) w0,
  grows D -> (forall w t, fst (D w) = Some t -> grows t) ->
  exists r, (let (task, w1) := D w0 in
             match task with Some t => snd (t w1) | None => w1 end).(trace)
            = w0.(trace) ++ r.
Proof.
  intros D w0 HD Ht. destruct (HD w0) as [r1 H1].
  destruct (D w0) as [[t|] w1] eqn:Ew; simpl in H1.
  - assert (Hg : grows t) by (apply (Ht w0); rewrite Ew; reflexivity).
    destruct (Hg w1) as [r2 H2].
    exists (r1 ++ r2). rewrite H2, H1, app_assoc. reflexivity.
  - exists r1. exact H1.
Qed.

Lemma run_request_after_save : forall U E param0 req w pp i,
  parseWebhookPath U (js "/webhook/" ++ param0) = Normal pp ->
  pp.(error) = None -> pp.(id) = Some i ->
  exists r, (run_request U E param0 req w).(trace)
            = (after_save E pp i req w).(trace) ++ r.
Proof.
  intros U E param0 req w pp i Hp He Hi.
  pose proof (parse_ok_id U _ pp i Hp He Hi) as Hn.
  unfold run_request. rewrite (handler_ok U E param0 req w pp i Hp He Hi Hn).
  cbv zeta. apply run_after.
  - destruct (responseStatus pp), (responseType pp), (forwardUrl pp);
      auto 6 with grows.
  - intros w0 t. destruct (responseStatus pp), (responseType pp), (forwardUrl pp);
      unfold bind, ret; simpl;
      repeat match goal with |- context [let (_, _) := ?p in _] => destruct p end;
      simpl; try discriminate.
    unfold forwardRequestInBackground, bind, ret, record. simpl.
    intros Hq. injection Hq as <-.
    destruct (upstream _ _); auto with grows.
Qed.

(** C8 (as amended): when [saveRequest] resolves, the request's events,
    the detached background forward included, start with the lookup, the
    save and the [request:new] notification of the exchange; so the
    forward call ([EForward]) and every [request:updated] of this request
    come after them. *)
Theorem saved_before_forward : forall U E param0 req w pp i,
  parseWebhookPath U (js "/webhook/" ++ param0) = Normal pp ->
  pp.(error) = None -> pp.(id) = Some i -> E.(save_ok) = true ->
  exists rest,
    (run_request U E param0 req w).(trace)
      = w.(trace) ++ [ELookup i; ESaved E.(new_rid);
                      EEmit i (js "request:new") E.(new_rid)] ++ rest.
Proof.
  intros U E param0 req w pp i Hp He Hi Hs.
  destruct (run_request_after_save U E param0 req w pp i Hp He Hi) as [r Hr].
  exists r. rewrite Hr. unfold after_save. rewrite Hs. simpl.
  rewrite <- app_assoc. reflexivity.
Qed.

Lemma handler_trace_after_save : forall U E param0 req w pp i,
  parseWebhookPath U (js "/webhook/" ++ param0) = Normal pp ->
  pp.(error) = None -> pp.(id) = Some i ->
  exists r, (snd (webhook_handler U E param0 req w)).(trace)
            = (after_save E pp i req w).(trace) ++ r.
Proof.
  intros U E param0 req w pp i Hp He Hi.
  pose proof (parse_ok_id U _ pp i Hp He Hi) as Hn.
  rewrite (handler_ok U E param0 req w pp i Hp He Hi Hn). cbv zeta.
  match goal with |- exists r, trace (snd (?D ?w0)) = _ =>
    cut (grows D); [intros HD; exact (HD w0)|] end.
  destruct (responseStatus pp), (responseType pp), (forwardUrl pp);
    auto 6 with grows.
Qed.


(** ** Objects *)

Lemma obj_get_set : forall A (o : list (jsstr * A)) k v k',
  obj_get (obj_set o k v) k' = if str_eqb k' k then Some v else obj_get o k'.
Proof.
  intros A o k v k'. induction o as [|[k1 v1] o IH]; simpl; [reflexivity|].
  destruct (str_eqb k k1) eqn:E1.
  - apply str_eqb_eq in E1. subst k1. simpl. destruct (str_eqb k' k); reflexivity.
  - simpl. rewrite IH. destruct (str_eqb k' k1) eqn:E2; [|reflexivity].
    apply str_eqb_eq in E2. subst k'.
    destruct (str_eqb k1 k) eqn:E3; [|reflexivity].
    apply str_eqb_eq in E3. subst. rewrite str_eqb_refl in E1. discriminate.
Qed.

Lemma obj_get_app : forall A (a b : list (jsstr * A)) k,
  obj_get (a ++ b) k = match obj_get a k with Some v => Some v | None => obj_get b k end.
Proof.
  intros A a b k. induction a as [|[k1 v1] a IH]; simpl; [reflexivity|].
  destruct (str_eqb k k1); [reflexivity | exact IH].
Qed.

(** the last write of a key in the patch wins *)
Lemma obj_get_merge : forall A (p o : list (jsstr * A)) k,
  obj_get (obj_merge o p) k
  = match obj_get (rev p) k with Some v => Some v | None => obj_get o k end.
Proof.
  intros A p. induction p as [|[k1 v1] p IH]; intros o k; [reflexivity|].
  unfold obj_merge. cbn [fold_left fst snd].
  change (fold_left (fun acc kv => obj_set acc (fst kv) (snd kv)) p (obj_set o k1 v1))
    with (obj_merge (obj_set o k1 v1) p).
  rewrite IH, obj_get_set. cbn [rev]. rewrite obj_get_app. simpl.
  destruct (obj_get (rev p) k); [reflexivity|].
  destruct (str_eqb k k1); reflexivity.
Qed.

Lemma find_patch_first : forall rid patch s,
  (forall o, has_rid rid (obj_merge o patch) = has_rid rid o) ->
  find (has_rid rid) (patch_first rid patch s)
  = option_map (fun o => obj_merge o patch) (find (has_rid rid) s).
Proof.
  intros rid patch s H. induction s as [|o s IH]; [reflexivity|]. simpl.
  destruct (has_rid rid o) eqn:E; simpl; [rewrite H, E; reflexivity|rewrite E; exact IH].
Qed.

Lemma has_rid_merge : forall rid patch o,
  obj_get (rev patch) (js "rid") = None ->
  has_rid rid (obj_merge o patch) = has_rid rid o.
Proof. intros rid patch o H. unfold has_rid. rewrite obj_get_merge, H. reflexivity. Qed.

Lemma find_none_all : forall A (f : A -> bool) l,
  (forall x, In x l -> f x = false) -> find f l = None.
Proof.
  intros A f l H. induction l as [|x l IH]; [reflexivity|]. simpl.
  rewrite H by (left; reflexivity). apply IH. intros y Hy. apply H. right; exact Hy.
Qed.

(** [res.set] of headers with distinct names, one after the other *)
Lemma res_set_fold : forall hs acc : headers,
  NoDup (map (fun kv => map lower (fst kv)) (acc ++ hs)) ->
  fold_left (fun h kv => res_set h (fst kv) (snd kv)) hs acc = acc ++ hs.
Proof.
  induction hs as [|[k v] hs IH]; intros acc Hnd; cbn [fold_left fst snd].
  - rewrite app_nil_r. reflexivity.
  - assert (Hf : find (fun kv => str_eqb (map lower (fst kv)) (map lower k)) acc = None).
    { apply find_none_all. intros x Hx.
      destruct (str_eqb (map lower (fst x)) (map lower k)) eqn:Ex; [|reflexivity].
      apply str_eqb_eq in Ex. rewrite map_app in Hnd. simpl in Hnd.
      apply NoDup_remove_2 in Hnd. exfalso. apply Hnd. apply in_or_app. left.
      rewrite <- Ex. apply (in_map (fun kv => map lower (fst kv))). exact Hx. }
    unfold res_set at 2. rewrite Hf. rewrite IH.
    + rewrite <- app_assoc. reflexivity.
    + rewrite <- app_assoc. exact Hnd.
Qed.

Lemma responses_app : forall a b, responses (a ++ b) = responses a ++ responses b.
Proof.
  induction a as [|e a IH]; intros b; [reflexivity|].
  destruct e; simpl; rewrite IH; reflexivity.
Qed.


Lemma substring_prefix : forall s n, 0 <= n <= len s ->
  substring s 0 n = firstn (Z.to_nat n) s.
Proof.
  intros s n Hn. unfold substring, clamp.
  rewrite (Z.min_l 0 (len s)) by (unfold len; lia).
  rewrite (Z.min_l n (len s)) by lia.
  rewrite (Z.max_r 0 n) by lia. simpl Z.max. cbn [Z.to_nat].
  rewrite Nat.min_0_l, Nat.max_0_l, Nat.sub_0_r. reflexivity.
Qed.

Lemma stored_body_cases : forall fb hs data,
  let contentType := match obj_get hs (js "content-type") with
                     | Some v => v | None => [] end in
  (fb = false -> includes contentType (js "application/json") = false ->
   1000 < len data -> stored_body fb hs data = firstn 1000 data ++ truncation_marker) /\
  (fb = true -> stored_body fb hs data = data).
Proof.
  intros fb hs data ct. split.
  - intros -> Hj Hl. unfold ct in Hj. unfold stored_body.
    replace (1000 <? len data) with true by (symmetry; apply Z.ltb_lt; exact Hl).
    cbv beta iota zeta delta [negb andb].
    match goal with |- context [includes ?x ?y] =>
      replace (includes x y) with false by (symmetry; exact Hj) end.
    cbn [negb]. rewrite substring_prefix by lia. reflexivity.
  - intros ->. reflexivity.
Qed.

(** C7 (as amended): after a successful forward in either mode whose
    record update resolves and reaches the storage, the stored [forward_response_body] is
    [stored_body fullBody headers data]: with [fullBody] false, a content
    type without [application/json] and a body longer than 1000 UTF-16
    code units, the first 1000 code units and the truncation marker; with
    [fullBody] true, the complete body. *)
Theorem forward_stored_body : forall E entry url req b fb st hs data,
  E.(upstream) (make_config url req b) = AxOk st hs data -> E.(update_ok) = true ->
  E.(update_stored) = true ->
  let rid := rid_of entry in
  let contentType := match obj_get hs (js "content-type") with
                     | Some v => v | None => [] end in
  (forall w o, find_record rid w = Some o ->
     field (find_record rid (snd (forwardRequestAndRespond E entry url req b fb w)))
       "forward_response_body" = Some (JStr (stored_body fb hs data))) /\
  (forall w0 w o, find_record rid w = Some o ->
     field (find_record rid (snd (fst (forwardRequestInBackground E entry url req b fb w0) w)))
       "forward_response_body" = Some (JStr (stored_body fb hs data))) /\
  (fb = false -> includes contentType (js "application/json") = false ->
   1000 < len data -> stored_body fb hs data = firstn 1000 data ++ truncation_marker) /\
  (fb = true -> stored_body fb hs data = data).
Proof.
  intros E entry url req b fb st hs data Hu Hok Hst rid ct.
  split; [|split; [|exact (stored_body_cases fb hs data)]].
  - intros w o Hf.
    unfold forwardRequestAndRespond, update_and_emit, updateRequest, emitRequestEvent,
      respond, record, bind, ret. rewrite Hu, Hok, Hst.
    unfold find_record in *. cbn -[stored_body].
    rewrite find_patch_first by (intros; apply has_rid_merge; reflexivity).
    fold rid. rewrite Hf. cbn [option_map field].
    rewrite obj_get_merge. reflexivity.
  - intros w0 w o Hf.
    unfold forwardRequestInBackground, update_and_emit, updateRequest, emitRequestEvent,
      record, bind, ret. cbn [fst snd]. rewrite Hu, Hok, Hst.
    unfold find_record in *. cbn -[stored_body].
    rewrite find_patch_first by (intros; apply has_rid_merge; reflexivity).
    fold rid. rewrite Hf. cbn [option_map field].
    rewrite obj_get_merge. reflexivity.
Qed.

(** ** Directive round trips, responses, store effects *)

Lemma parse_res_error : forall ps r,
  error_ok r.(error) -> error_ok (parse_res ps r).(error).
Proof.
  intros ps r H. unfold parse_res.
  destruct (seg_match res_at ps) as [[? g2]|]; [|exact H].
  destruct (res_param_match _) as [[? ?]|]; simpl; [exact H|].
  right. eexists _, _. reflexivity.
Qed.

Lemma check_forward_error : forall U r u,
  error_ok r.(error) -> error_ok (check_forward U r u).(error).
Proof.
  intros U r u H. unfold check_forward.
  destruct (U u) as [p|]; [destruct (http_protocol p)|]; simpl;
    [exact H| right; eexists _, _; reflexivity | right; eexists _, _; reflexivity].
Qed.

Lemma parse_fwd_error : forall U ps r,
  error_ok r.(error) -> error_ok (parse_fwd U ps r).(error).
Proof.
  intros U ps r H. unfold parse_fwd.
  destruct (seg_match fwd_bounded_at ps) as [[? u]|]; [apply check_forward_error; exact H|].
  destruct (seg_match fwd_legacy_at ps) as [[? u]|]; [apply check_forward_error; exact H|exact H].
Qed.



(** A [forwardUrl] the parser keeps is one [new URL] accepts with protocol [http:] or [https:]. *)
Theorem parse_forward_accepted : forall U p d u,
  parseWebhookPath U p = Normal d -> d.(forwardUrl) = Some u ->
  accepted U u = true.
Proof.
  intros U p d u H Hu. decode_parse H; try discriminate.
  apply initial_fields in Ht as [Hn _].
  unfold parse_fwd in Hu.
  destruct (seg_match fwd_bounded_at _) as [[? v]|];
    [|destruct (seg_match fwd_legacy_at _) as [[? v]|]];
    try (rewrite Hn in Hu; discriminate);
    rewrite check_forward_url, Hn in Hu;
    destruct (accepted U _) eqn:Ha; try discriminate;
    injection Hu as <-; exact Ha.
Qed.

(** A path with only an id segment (no ['/'], with or without a trailing ['/']) parses to the sanitized id and no directive. *)
Theorem parse_plain_id : forall U s i,
  ~ In 47 s -> sanitizeId s = Some i ->
  let r0 := {| id := Some i; responseStatus := None; responseType := None;
               forwardUrl := None; fullBody := false; tag := None;
               error := None |} in
  parseWebhookPath U (js "/webhook/" ++ s) = Normal r0 /\
  parseWebhookPath U (js "/webhook/" ++ s ++ [47]) = Normal r0.
Proof.
  intros U s i Hs Hi r0. unfold parseWebhookPath.
  rewrite !strip_webhook_prefix_app. split.
  - destruct s as [|c t]; [discriminate|].
    rewrite split_id_noslash by exact Hs. cbv beta iota. rewrite Hi. reflexivity.
  - destruct (s ++ [47]) as [|c t] eqn:Es; [destruct s; discriminate|].
    rewrite <- Es. rewrite split_id_slash by exact Hs. cbv beta iota. rewrite Hi. reflexivity.
Qed.

Lemma scan_slash_noslash : forall A (f : jsstr -> option A) s,
  ~ In 47 s -> scan_slash f s = None.
Proof.
  intros A f. induction s as [|c s IH]; intros Hs; [reflexivity|]. simpl.
  assert (Hc : is_slash c = false)
    by (apply Z.eqb_neq; intro Heq; apply Hs; left; lia).
  rewrite Hc. apply IH. intro; apply Hs; right; auto.
Qed.

Lemma seg_match_noslash : forall A (f : jsstr -> option A) s,
  ~ In 47 s -> seg_match f s = option_map (fun a => ([], a)) (f s).
Proof.
  intros A f s Hs. unfold seg_match. destruct (f s); [reflexivity|].
  apply scan_slash_noslash. exact Hs.
Qed.

Lemma decode_plain : forall fuel s,
  (List.length s < fuel)%nat -> ~ In 37 s -> URI.decode fuel s = Some s.
Proof.
  induction fuel as [|f IH]; intros s Hl Hs; [lia|].
  destruct s as [|c s]; [reflexivity|]. simpl.
  assert (Hc : (c =? 37) = false) by (apply Z.eqb_neq; intro Heq; apply Hs; left; lia).
  rewrite Hc. rewrite IH; [reflexivity| simpl in Hl; lia |].
  intro; apply Hs; right; auto.
Qed.

Lemma not_in_app : forall (a b : jsstr) c, ~ In c a -> ~ In c b -> ~ In c (a ++ b).
Proof. intros a b c Ha Hb H. apply in_app_or in H as [H|H]; auto. Qed.

(** [/webhook/<id>/tag:<t>], for a nonempty [t] without ['/'] or ['%'], parses back to the id and the tag [t]. *)
Theorem parse_tag_roundtrip : forall U rawId i t,
  ~ In 47 rawId -> sanitizeId rawId = Some i ->
  t <> [] -> ~ In 47 t -> ~ In 37 t ->
  parseWebhookPath U (js "/webhook/" ++ rawId ++ 47 :: js "tag:" ++ t) =
  Normal {| id := Some i; responseStatus := None; responseType := None;
            forwardUrl := None; fullBody := false; tag := Some t; error := None |}.
Proof.
  intros U rawId i t Hl Hi Hn Ht Hp.
  assert (Hr : ~ In 47 (js "tag:" ++ t))
    by (apply not_in_app; [simpl; intuition discriminate | exact Ht]).
  rewrite (parse_with_id U rawId i) by (first [exact Hl | exact Hi | discriminate]).
  unfold parse_res, parse_fullbody, parse_tag, parse_fwd.
  rewrite !seg_match_noslash by exact Hr.
  unfold tag_at at 1. rewrite strip_prefix_app, take_while_noslash by exact Ht.
  destruct t as [|c t']; [congruence|].
  cbv [option_map].
  replace (res_at (js "tag:" ++ c :: t')) with (@None jsstr) by reflexivity.
  replace (fullbody_at (js "tag:" ++ c :: t')) with (@None unit) by reflexivity.
  unfold URI.decodeURIComponent. rewrite decode_plain by (first [lia | exact Hp]).
  replace (fwd_bounded_at (js "tag:" ++ c :: t')) with (@None jsstr) by reflexivity.
  replace (fwd_legacy_at (js "tag:" ++ c :: t')) with (@None jsstr) by reflexivity.
  reflexivity.
Qed.

Lemma pad3_digits : forall n, 0 <= n <= 999 ->
  exists a b c, pad3 n = [a; b; c] /\ is_digit a = true /\ is_digit b = true /\
    is_digit c = true /\ parseInt10 [a; b; c] = n.
Proof.
  intros n Hn. exists (48 + n / 100), (48 + (n / 10) mod 10), (48 + n mod 10).
  split; [reflexivity|].
  assert (H1 : 0 <= n / 100 < 10) by (split; [apply Z.div_pos|apply Z.div_lt_upper_bound]; lia).
  assert (H2 : 0 <= (n / 10) mod 10 < 10) by (apply Z.mod_pos_bound; lia).
  assert (H3 : 0 <= n mod 10 < 10) by (apply Z.mod_pos_bound; lia).
  unfold is_digit. repeat split; try (apply andb_true_iff; split; apply Z.leb_le; lia).
  unfold parseInt10. cbn [fold_left].
  assert (Hd : n / 100 = n / 10 / 10) by (rewrite Z.div_div by lia; reflexivity).
  pose proof (Z.div_mod n 10 ltac:(lia)). pose proof (Z.div_mod (n / 10) 10 ltac:(lia)).
  lia.
Qed.

Lemma digit_not_slash : forall c, is_digit c = true -> c <> 47.
Proof. intros c H ->. discriminate. Qed.

(** [/webhook/<id>/res:<ddd><type>], for a status written with three digits and a type among [plain], [json] and [html], parses back to that status and type. *)
Theorem parse_res_roundtrip : forall U rawId i n ty,
  ~ In 47 rawId -> sanitizeId rawId = Some i -> 0 <= n <= 999 ->
  In ty [js "plain"; js "json"; js "html"] ->
  parseWebhookPath U (js "/webhook/" ++ rawId ++ 47 :: js "res:" ++ pad3 n ++ ty) =
  Normal {| id := Some i; responseStatus := Some n; responseType := Some ty;
            forwardUrl := None; fullBody := false; tag := None; error := None |}.
Proof.
  intros U rawId i n ty Hl Hi Hn Hty.
  destruct (pad3_digits n Hn) as [a [b [c [Hp [Ha [Hb [Hc Hv]]]]]]].
  rewrite Hp, <- Hv. clear Hp Hv Hn.
  assert (Hr : ~ In 47 (js "res:" ++ [a; b; c] ++ ty)).
  { apply not_in_app; [simpl; intuition discriminate|].
    apply not_in_app.
    - simpl. pose proof (digit_not_slash a Ha). pose proof (digit_not_slash b Hb).
      pose proof (digit_not_slash c Hc). intuition.
    - destruct Hty as [<-|[<-|[<-|[]]]]; simpl; intuition discriminate. }
  rewrite (parse_with_id U rawId i) by (first [exact Hl | exact Hi | discriminate]).
  unfold parse_res, parse_fullbody, parse_tag, parse_fwd.
  rewrite !seg_match_noslash by exact Hr.
  set (g := js "res:" ++ [a; b; c] ++ ty).
  assert (Hres : res_at g = Some g /\ res_param_match (substring_from g 4) = Some ([a; b; c], ty)).
  { unfold g. destruct Hty as [<-|[<-|[<-|[]]]]; unfold res_at, res_token, res_param_match;
      rewrite strip_prefix_app;
      change (substring_from (js "res:" ++ [a; b; c] ++ ?t) 4) with (a :: b :: c :: t);
      change ([a; b; c] ++ ?t) with (a :: b :: c :: t);
      unfold three_digits; rewrite Ha, Hb, Hc; split; reflexivity. }
  destruct Hres as [H1 H2]. rewrite H1. cbv [option_map]. rewrite H2.
  replace (fullbody_at g) with (@None unit) by reflexivity.
  replace (tag_at g) with (@None jsstr) by reflexivity.
  replace (fwd_bounded_at g) with (@None jsstr) by reflexivity.
  replace (fwd_legacy_at g) with (@None jsstr) by reflexivity.
  reflexivity.
Qed.

Lemma answers_ret : forall A (a : A), answers 0 (ret a).
Proof. intros A a w. exists []. rewrite app_nil_r. split; reflexivity. Qed.

Lemma answers_record : forall e, answers (List.length (responses [e])) (record e).
Proof. intros e w. exists [e]. split; reflexivity. Qed.

Lemma answers_bind : forall A B n k (m : M A) (f : A -> M B),
  answers n m -> (forall a, answers k (f a)) -> answers (n + k) (bind m f).
Proof.
  intros A B n k m f Hm Hf w. unfold bind.
  destruct (Hm w) as [r1 [H1 L1]]. destruct (m w) as [a w'] eqn:Ew. simpl in H1.
  destruct (Hf a w') as [r2 [H2 L2]]. exists (r1 ++ r2).
  rewrite H2, H1, app_assoc, responses_app, length_app, L1, L2. split; reflexivity.
Qed.

Lemma answers_update_and_emit : forall E entry patch, answers 0 (update_and_emit E entry patch).
Proof.
  intros E entry patch. unfold update_and_emit, emitRequestEvent.
  apply (answers_bind _ _ 0 0).
  - intros w. unfold updateRequest. destruct (update_ok E); simpl.
    + eexists; split; reflexivity.
    + exists []. rewrite app_nil_r. split; reflexivity.
  - intros []; [apply answers_record | apply answers_ret].
Qed.

Lemma answers_forwardRequestAndRespond : forall E entry url req b fb,
  answers 1 (forwardRequestAndRespond E entry url req b fb).
Proof.
  intros E entry url req b fb w.
  destruct (sync_forward_trace E entry url req b fb w) as [post [H1 H2]].
  exists (EForward Synchronous (make_config url req b) :: post).
  rewrite H1. split; [reflexivity|]. simpl. rewrite H2. reflexivity.
Qed.

Lemma answers_forwardRequestInBackground : forall E entry url req b fb,
  answers 0 (forwardRequestInBackground E entry url req b fb).
Proof.
  intros. unfold forwardRequestInBackground.
  apply (answers_bind _ _ 0 0); [apply answers_record | intros; apply answers_ret].
Qed.

Lemma answers_background_task : forall E entry url req b fb w,
  answers 0 (fst (forwardRequestInBackground E entry url req b fb w)).
Proof.
  intros. unfold forwardRequestInBackground, bind, record, ret. simpl.
  destruct (upstream E _); apply answers_update_and_emit.
Qed.

Lemma parse_error_ok : forall U p d,
  parseWebhookPath U p = Normal d -> error_ok d.(error).
Proof.
  intros U p d H. decode_parse H.
  - right. eexists _, _. reflexivity.
  - right. eexists _, _. reflexivity.
  - left. reflexivity.
  - apply parse_fwd_error. apply parse_tag_fields in Ht as [_ [_ [_ [_ [-> _]]]]].
    destruct (parse_fullbody_fields (param_string p) (parse_res (param_string p)
      {| id := Some i; responseStatus := None; responseType := None;
         forwardUrl := None; fullBody := false; tag := None; error := None |}))
      as [_ [_ [_ [_ ->]]]].
    apply parse_res_error. left. reflexivity.
Qed.

(** The [error] of a parsed path is [null] or a nonempty message, never the empty string. *)
Theorem parse_error_never_empty : forall U p d,
  parseWebhookPath U p = Normal d ->
  d.(error) = None \/ error_nonempty d.
Proof. intros U p d H. exact (parse_error_ok U p d H). Qed.

(** Every run of the webhook handler sends exactly one response, and the background task it may leave sends none. *)
Theorem handler_one_response : forall U E param0 req w,
  exists r, (snd (webhook_handler U E param0 req w)).(trace) = w.(trace) ++ r /\
    List.length (responses r) = 1%nat /\
    (forall t, fst (webhook_handler U E param0 req w) = Some t -> answers 0 t).
Proof.
  intros U E param0 req w.
  destruct (parseWebhookPath U (js "/webhook/" ++ param0)) as [pp|msg] eqn:Hp.
  2: { unfold webhook_handler. rewrite Hp. eexists. split; [reflexivity|].
       split; [reflexivity|]. intros t Ht. discriminate. }
  destruct (error pp) as [[|c e]|] eqn:He.
  - destruct (parse_error_ok U _ pp Hp) as [H|[c [e H]]]; congruence.
  - unfold webhook_handler. rewrite Hp, He. eexists. split; [reflexivity|].
    split; [reflexivity|]. intros t Ht. discriminate.
  - destruct (id pp) as [[|c t]|] eqn:Hi;
      [ | | unfold webhook_handler; rewrite Hp, He, Hi; eexists; split; [reflexivity|];
            split; [reflexivity|]; intros t Ht; discriminate ].
    + unfold webhook_handler. rewrite Hp, He, Hi. eexists. split; [reflexivity|].
      split; [reflexivity|]. intros t Ht. discriminate.
    + rewrite (handler_ok U E param0 req w pp (c :: t) Hp He Hi ltac:(discriminate)).
      cbv zeta.
      assert (Ha : exists r, (after_save E pp (c :: t) req w).(trace) = w.(trace) ++ r /\
                             responses r = [])
        by (unfold after_save; destruct (save_ok E); eexists; split; reflexivity).
      destruct Ha as [r0 [Hr0 Ho]].
      destruct (responseStatus pp), (responseType pp), (forwardUrl pp);
      match goal with |- exists r, trace (snd (?D ?w0)) = _ /\ _ /\ _ =>
        assert (HD : answers 1 D) end;
      try (unfold sendImmediateResponse, respond;
           first [ apply (answers_bind _ _ 1 0);
                   [ apply answers_record
                   | intros; first [ apply answers_ret
                                   | apply (answers_bind _ _ 0 0);
                                     [apply answers_forwardRequestInBackground
                                     | intros; apply answers_ret]]]
                 | apply (answers_bind _ _ 1 0);
                   [apply answers_forwardRequestAndRespond | intros; apply answers_ret] ]);
      destruct (HD (after_save E pp (c :: t) req w)) as [r1 [H1 L1]];
      exists (r0 ++ r1); rewrite H1, Hr0, app_assoc, responses_app, Ho;
      (split; [reflexivity| split; [exact L1|]]);
      unfold bind, ret, sendImmediateResponse, respond, record; simpl;
      unfold bind, ret, sendImmediateResponse, respond, record; simpl.
   all: intros t0 Hq;
      repeat match type of Hq with context [let (_, _) := ?p in _] =>
        destruct p as [? ?] eqn:? end;
      simpl in Hq; try discriminate.
   injection Hq as <-. destruct (upstream E _); apply answers_update_and_emit.
Qed.

Section Keeps.
Variable Q : list object -> Prop.

Lemma keeps_ret : forall A (a : A), keeps Q (ret a).
Proof. intros A a w H. exact H. Qed.

Lemma keeps_record : forall e, keeps Q (record e).
Proof. intros e w H. exact H. Qed.

Lemma keeps_bind : forall A B (m : M A) (f : A -> M B),
  keeps Q m -> (forall a, keeps Q (f a)) -> keeps Q (bind m f).
Proof.
  intros A B m f Hm Hf w H. unfold bind. specialize (Hm w H).
  destruct (m w) as [a w']. apply Hf. exact Hm.
Qed.

Variable rid : jsstr.
Hypothesis Hpatch : forall p s, Q s -> Q (patch_first rid p s).

Lemma keeps_update_and_emit : forall E entry patch, rid_of entry = rid ->
  keeps Q (update_and_emit E entry patch).
Proof.
  intros E entry patch Hr. unfold update_and_emit, emitRequestEvent.
  apply keeps_bind.
  - intros w H. unfold updateRequest.
    destruct (update_ok E), (update_stored E); simpl;
      try (rewrite Hr; apply Hpatch); exact H.
  - intros []; [apply keeps_record | apply keeps_ret].
Qed.

Lemma keeps_forwardRequestAndRespond : forall E entry url req b fb, rid_of entry = rid ->
  keeps Q (forwardRequestAndRespond E entry url req b fb).
Proof.
  intros E entry url req b fb Hr. unfold forwardRequestAndRespond, respond.
  apply keeps_bind; [apply keeps_record|]. intros _.
  destruct (upstream E _).
  - apply keeps_bind; [apply keeps_record|]. intros _. apply keeps_update_and_emit. exact Hr.
  - apply keeps_bind; [apply keeps_update_and_emit; exact Hr|]. intros _. apply keeps_record.
Qed.

Lemma keeps_background_task : forall E entry url req b fb w, rid_of entry = rid ->
  keeps Q (fst (forwardRequestInBackground E entry url req b fb w)).
Proof.
  intros. unfold forwardRequestInBackground, bind, record, ret. simpl.
  destruct (upstream E _); apply keeps_update_and_emit; assumption.
Qed.

End Keeps.

Lemma patch_first_length : forall rid p s,
  List.length (patch_first rid p s) = List.length s.
Proof.
  intros rid p s. induction s as [|o s IH]; [reflexivity|]. simpl.
  destruct (has_rid rid o); simpl; [reflexivity | rewrite IH; reflexivity].
Qed.

Lemma patch_first_fresh_app : forall rid p s0 t,
  (forall o, In o s0 -> has_rid rid o = false) ->
  patch_first rid p (s0 ++ t) = s0 ++ patch_first rid p t.
Proof.
  intros rid p s0 t H. induction s0 as [|o s0 IH]; [reflexivity|]. simpl.
  rewrite (H o (or_introl eq_refl)). rewrite IH; [reflexivity|].
  intros o' Ho'. apply H. right. exact Ho'.
Qed.

Lemma parse_ok_has_id : forall U p d,
  parseWebhookPath U p = Normal d -> d.(error) = None -> exists i, d.(id) = Some i.
Proof.
  intros U p d H He. decode_parse H; try discriminate.
  - exists i. reflexivity.
  - exists i. destruct (parse_fwd_fields U (param_string p) r3) as [_ [_ ->]].
    apply initial_fields in Ht as [_ Ht]. exact Ht.
Qed.

Lemma rid_of_entry : forall E d i req, rid_of (entry_of E d i req) = E.(new_rid).
Proof. reflexivity. Qed.

(** The handler only appends to the record store: one record when the path parses without error and the save resolves having written the record, none otherwise. *)
Theorem handler_store_effect : forall U E param0 req w,
  (forall o, In o w.(store) -> has_rid E.(new_rid) o = false) ->
  exists t, (run_request U E param0 req w).(store) = w.(store) ++ t /\
    (forall pp, parseWebhookPath U (js "/webhook/" ++ param0) = Normal pp ->
       pp.(error) = None ->
       List.length t = if E.(save_ok) && E.(save_stored) then 1%nat else 0%nat) /\
    ((forall pp, parseWebhookPath U (js "/webhook/" ++ param0) = Normal pp ->
       pp.(error) <> None) -> t = []).
Proof.
  intros U E param0 req w Hf.
  destruct (parseWebhookPath U (js "/webhook/" ++ param0)) as [pp|msg] eqn:Hp.
  2: { exists []. unfold run_request, webhook_handler. rewrite Hp. simpl.
       rewrite app_nil_r. split; [reflexivity|]. split; [|reflexivity].
       intros pp H. discriminate. }
  destruct (error pp) as [[|c e]|] eqn:He.
  - destruct (parse_error_ok U _ pp Hp) as [H|[c [e H]]]; congruence.
  - exists []. unfold run_request, webhook_handler. rewrite Hp, He. simpl.
    rewrite app_nil_r. split; [reflexivity|]. split; [|reflexivity].
    intros pp' H. injection H as <-. congruence.
  - destruct (parse_ok_has_id U _ pp Hp He) as [i Hi].
    pose proof (parse_ok_id U _ pp i Hp He Hi) as Hn.
    set (k := if E.(save_ok) && E.(save_stored) then 1%nat else 0%nat).
    set (Q := fun s => exists t, s = w.(store) ++ t /\ List.length t = k).
    assert (HQ : forall p s, Q s -> Q (patch_first E.(new_rid) p s)).
    { intros p s [t [-> Ht]]. exists (patch_first E.(new_rid) p t).
      rewrite patch_first_fresh_app by exact Hf. rewrite patch_first_length.
      split; [reflexivity | exact Ht]. }
    assert (H0 : Q (after_save E pp i req w).(store)).
    { unfold Q, k, after_save. destruct (save_ok E), (save_stored E); simpl;
        [exists [entry_of E pp i req] | exists [] ..]; rewrite ?app_nil_r; split; reflexivity. }
    assert (Hrun : Q (run_request U E param0 req w).(store)).
    { unfold run_request. rewrite (handler_ok U E param0 req w pp i Hp He Hi Hn). cbv zeta.
      destruct (responseStatus pp), (responseType pp), (forwardUrl pp);
      unfold sendImmediateResponse, respond;
      match goal with |- Q (store (let (_, _) := ?D ?w0 in _)) =>
        assert (HD : keeps Q D);
        [ unfold forwardRequestInBackground;
          repeat first [
              apply (keeps_forwardRequestAndRespond Q E.(new_rid) HQ); reflexivity
            | apply keeps_bind | apply keeps_record | apply keeps_ret
            | intros _ ] | ] end.
      all: specialize (HD _ H0); revert HD;
        unfold bind, ret, sendImmediateResponse, respond, record; simpl;
        repeat match goal with |- context [let (_, _) := ?p in _] =>
          destruct p as [? ?] eqn:? end; simpl; intro HD; try exact HD.
      destruct (upstream E _);
        (apply (keeps_update_and_emit Q _ HQ); [reflexivity | exact HD]). }
    destruct Hrun as [t [Ht Hl]]. exists t. split; [exact Ht|]. split.
    + intros pp' H _. injection H as <-. exact Hl.
    + intros H. exfalso. exact (H pp eq_refl He).
Qed.

Lemma obj_get_delete : forall A (o : list (jsstr * A)) k' k,
  obj_get (obj_delete o k') k = if str_eqb k k' then None else obj_get o k.
Proof.
  intros A o k' k. unfold obj_delete. induction o as [|[k1 v1] o IH]; simpl.
  - destruct (str_eqb k k'); reflexivity.
  - destruct (str_eqb k' k1) eqn:E1; simpl.
    + apply str_eqb_eq in E1. subst k1. rewrite IH.
      destruct (str_eqb k k'); reflexivity.
    + destruct (str_eqb k k1) eqn:E2; [|exact IH].
      apply str_eqb_eq in E2. subst k1.
      destruct (str_eqb k k') eqn:E3; [|reflexivity].
      apply str_eqb_eq in E3. subst. rewrite str_eqb_refl in E1. discriminate.
Qed.

(** The headers forwarded upstream are the request's headers without the hop-by-hop ones and [host]. *)
Theorem forward_headers_lookup : forall req k,
  obj_get (forward_headers req) k =
  if existsb (str_eqb k) hop_by_hop then None else obj_get req.(req_headers) k.
Proof.
  intros req k. unfold forward_headers.
  generalize (req_headers req) as h. generalize hop_by_hop as l.
  induction l as [|k' l IH]; intros h; [reflexivity|]. simpl.
  rewrite IH, obj_get_delete. destruct (str_eqb k k'), (existsb (str_eqb k) l); reflexivity.
Qed.




(** ** Witnesses: the theorems at concrete inputs *)



Lemma parse_bounded_forward_with_res_witness :
  URLModel.whatwg_protocol c6_url = Some (js "https:") /\
  parseWebhookPath URLModel.whatwg_protocol
    (js "/webhook/" ++ js "abc" ++ js "/fwd:$$https://a.b/c?x=1#y$$/res:200json")
  = Normal {| id := Some (js "abc"); responseStatus := Some 200;
              responseType := Some (js "json"); forwardUrl := Some c6_url;
              fullBody := false; tag := None; error := None |}.
Proof.
  assert (HU : URLModel.whatwg_protocol c6_url = Some (js "https:"))
    by (vm_compute; reflexivity).
  split; [exact HU|].
  assert (Hl : ~ In 47 (js "abc")) by (vm_compute; intros [H|[H|[H|[]]]]; discriminate).
  destruct (proj1 (parse_bounded_forward_with_res _ HU) (js "abc") (js "abc") Hl eq_refl)
    as [H1 _].
  exact H1.
Defined.

Lemma forward_stored_body_witness :
  upstream (sample_env true (fun _ => AxOk 200 text_headers long_ascii))
    (make_config c6_url sample_req (js "hi")) = AxOk 200 text_headers long_ascii /\
  field (find_record (js "r1")
           (snd (forwardRequestAndRespond
                   (sample_env true (fun _ => AxOk 200 text_headers long_ascii))
                   sample_entry c6_url sample_req (js "hi") false stored_world)))
        "forward_response_body"
  = Some (JStr (firstn 1000 long_ascii ++ truncation_marker)).
Proof.
  split; [reflexivity|].
  destruct (forward_stored_body (sample_env true (fun _ => AxOk 200 text_headers long_ascii))
              sample_entry c6_url sample_req (js "hi") false 200 text_headers long_ascii
              eq_refl eq_refl eq_refl) as [Hs [_ [Ht _]]].
  rewrite <- (Ht eq_refl); [exact (Hs stored_world sample_entry eq_refl)
                           | vm_compute; reflexivity | vm_compute; reflexivity].
Defined.

Lemma saved_before_forward_witness :
  parseWebhookPath URLModel.whatwg_protocol (js "/webhook/" ++ fwd_param)
    = Normal fwd_directives /\
  exists rest,
    (run_request URLModel.whatwg_protocol (sample_env true axios_timeout) fwd_param
       sample_req empty_world).(trace)
    = [] ++ [ELookup (js "abc"); ESaved (js "r1");
             EEmit (js "abc") (js "request:new") (js "r1")] ++ rest.
Proof.
  assert (Hp : parseWebhookPath URLModel.whatwg_protocol (js "/webhook/" ++ fwd_param)
                 = Normal fwd_directives) by (vm_compute; reflexivity).
  split; [exact Hp|].
  exact (saved_before_forward URLModel.whatwg_protocol (sample_env true axios_timeout)
           fwd_param sample_req empty_world fwd_directives (js "abc") Hp eq_refl eq_refl
           eq_refl).
Defined.

Lemma parse_response_clause_paired_witness :
  parseWebhookPath URLModel.whatwg_protocol (js "/webhook/" ++ both_param)
    = Normal both_directives /\
  (both_directives.(responseStatus) = None <-> both_directives.(responseType) = None).
Proof.
  assert (Hp : parseWebhookPath URLModel.whatwg_protocol (js "/webhook/" ++ both_param)
                 = Normal both_directives) by (vm_compute; reflexivity).
  split; [exact Hp | exact (parse_response_clause_paired _ _ _ Hp)].
Defined.

Lemma parse_error_never_empty_witness :
  exists d, parseWebhookPath URLModel.whatwg_protocol (js "/webhook/abc/fwd:$$ftp://x.y$$")
              = Normal d /\ (d.(error) = None \/ error_nonempty d).
Proof.
  destruct (parseWebhookPath URLModel.whatwg_protocol (js "/webhook/abc/fwd:$$ftp://x.y$$"))
    as [d|e] eqn:Hp.
  - exists d. split; [reflexivity | exact (parse_error_never_empty _ _ _ Hp)].
  - exfalso. vm_compute in Hp. discriminate.
Defined.

Lemma parse_forward_accepted_witness :
  parseWebhookPath URLModel.whatwg_protocol (js "/webhook/" ++ both_param)
    = Normal both_directives /\
  both_directives.(forwardUrl) = Some c6_url /\
  accepted URLModel.whatwg_protocol c6_url = true.
Proof.
  assert (Hp : parseWebhookPath URLModel.whatwg_protocol (js "/webhook/" ++ both_param)
                 = Normal both_directives) by (vm_compute; reflexivity).
  split; [exact Hp|]. split; [reflexivity|].
  exact (parse_forward_accepted _ _ _ c6_url Hp eq_refl).
Defined.

Lemma parse_plain_id_witness :
  ~ In 47 (js "a.b") /\ sanitizeId (js "a.b") = Some (js "ab") /\
  parseWebhookPath URLModel.whatwg_protocol (js "/webhook/" ++ js "a.b" ++ [47]) =
    Normal {| id := Some (js "ab"); responseStatus := None; responseType := None;
              forwardUrl := None; fullBody := false; tag := None; error := None |}.
Proof.
  assert (Hl : ~ In 47 (js "a.b")) by (vm_compute; intros [H|[H|[H|[]]]]; discriminate).
  assert (Hs : sanitizeId (js "a.b") = Some (js "ab")) by reflexivity.
  split; [exact Hl|]. split; [exact Hs|].
  exact (proj2 (parse_plain_id URLModel.whatwg_protocol _ _ Hl Hs)).
Defined.

Lemma parse_tag_roundtrip_witness :
  ~ In 47 (js "abc") /\ sanitizeId (js "abc") = Some (js "abc") /\
  js "v2" <> [] /\ ~ In 47 (js "v2") /\ ~ In 37 (js "v2") /\
  parseWebhookPath URLModel.whatwg_protocol (js "/webhook/" ++ js "abc" ++ 47 :: js "tag:" ++ js "v2") =
  Normal {| id := Some (js "abc"); responseStatus := None; responseType := None;
            forwardUrl := None; fullBody := false; tag := Some (js "v2"); error := None |}.
Proof.
  assert (Hl : ~ In 47 (js "abc")) by (vm_compute; intros [H|[H|[H|[]]]]; discriminate).
  assert (Hs : sanitizeId (js "abc") = Some (js "abc")) by reflexivity.
  assert (Hn : js "v2" <> []) by discriminate.
  assert (H1 : ~ In 47 (js "v2")) by (vm_compute; intros [H|[H|[]]]; discriminate).
  assert (H2 : ~ In 37 (js "v2")) by (vm_compute; intros [H|[H|[]]]; discriminate).
  split; [exact Hl|]. split; [exact Hs|]. split; [exact Hn|]. split; [exact H1|].
  split; [exact H2|].
  exact (parse_tag_roundtrip URLModel.whatwg_protocol _ _ _ Hl Hs Hn H1 H2).
Defined.

Lemma parse_res_roundtrip_witness :
  ~ In 47 (js "abc") /\ sanitizeId (js "abc") = Some (js "abc") /\ 0 <= 7 <= 999 /\
  In (js "json") [js "plain"; js "json"; js "html"] /\
  parseWebhookPath URLModel.whatwg_protocol (js "/webhook/" ++ js "abc" ++ 47 :: js "res:" ++ pad3 7 ++ js "json") =
  Normal {| id := Some (js "abc"); responseStatus := Some 7; responseType := Some (js "json");
            forwardUrl := None; fullBody := false; tag := None; error := None |}.
Proof.
  assert (Hl : ~ In 47 (js "abc")) by (vm_compute; intros [H|[H|[H|[]]]]; discriminate).
  assert (Hs : sanitizeId (js "abc") = Some (js "abc")) by reflexivity.
  assert (Hn : 0 <= 7 <= 999) by lia.
  assert (Ht : In (js "json") [js "plain"; js "json"; js "html"]) by (right; left; reflexivity).
  split; [exact Hl|]. split; [exact Hs|]. split; [exact Hn|]. split; [exact Ht|].
  exact (parse_res_roundtrip URLModel.whatwg_protocol _ _ _ _ Hl Hs Hn Ht).
Defined.

Lemma handler_store_effect_witness :
  (forall o, In o empty_world.(store) -> has_rid (js "r1") o = false) /\
  exists t, (run_request URLModel.whatwg_protocol (sample_env true axios_timeout)
               fwd_param sample_req empty_world).(store) = empty_world.(store) ++ t /\
    List.length t = 1%nat.
Proof.
  assert (Hf : forall o, In o empty_world.(store) -> has_rid (js "r1") o = false)
    by (intros o []).
  split; [exact Hf|].
  destruct (handler_store_effect URLModel.whatwg_protocol (sample_env true axios_timeout)
              fwd_param sample_req empty_world Hf) as [t [Ht [Hn _]]].
  exists t. split; [exact Ht|].
  exact (Hn fwd_directives ltac:(vm_compute; reflexivity) eq_refl).
Defined.


(** ** Counterexamples *)

(** C7: the limit is in UTF-16 code units. A text body of 600 U+00E9 is
    1200 UTF-8 bytes but 600 code units, so it is stored in full, with no
    truncation marker. *)
Lemma multibyte_body_not_truncated :
  utf8_byte_length e_acute_600 = 1200 /\
  field (find_record (js "r1")
           (snd (forwardRequestAndRespond
                   (sample_env true (fun _ => AxOk 200 text_headers e_acute_600))
                   sample_entry c6_url sample_req (js "hi") false stored_world)))
        "forward_response_body"
  = Some (JStr e_acute_600).
Proof. vm_compute. split; reflexivity. Qed.

(** C8: when [saveRequest] throws, the handler logs it and goes on to
    forward: nothing is stored, no [request:new] is emitted, yet the
    failed forward's update resolves and emits [request:updated]. *)
Lemma save_failure_update_without_create :
  let w := run_request URLModel.whatwg_protocol (sample_env false axios_timeout)
             fwd_param sample_req empty_world in
  w.(store) = [] /\
  In (EEmit (js "abc") (js "request:updated") (js "r1")) w.(trace) /\
  ~ In (EEmit (js "abc") (js "request:new") (js "r1")) w.(trace).
Proof.
  vm_compute. split; [reflexivity|]. split.
  - repeat (first [left; reflexivity | right]).
  - intros H. repeat (destruct H as [H|H]; [discriminate|]). exact H.
Qed.


(** C2: a three-digit status below 100 parses without error. With a
    forward target the handler goes on to [sendImmediateResponse] with
    status 50, which Node's [writeHead] (or Express 5's [res.status])
    rejects; the outer catch then answers 500 before the background
    forward starts. *)
Lemma res_status_below_100_accepted :
  parseWebhookPath URLModel.whatwg_protocol
    (js "/webhook/" ++ js "abc/res:050json/fwd:$$https://a.b/c?x=1#y$$")
  = Normal {| id := Some (js "abc"); responseStatus := Some 50;
              responseType := Some (js "json"); forwardUrl := Some c6_url;
              fullBody := false; tag := None; error := None |} /\
  (immediate_response 50 (js "json") (js "abc") (js "POST") (js "hi")).(status) = 50.
Proof. vm_compute. split; reflexivity. Qed.

(** C3: axios rejects a non-2xx upstream status with the message
    [Request failed with status code 404]. A synchronous forward whose
    upstream answers 404 therefore reaches the catch: the client gets the
    502 JSON error, not the upstream 404, and the record stores 502. *)
Lemma upstream_404_answers_502 :
  let o := fun _ : axios_config => AxErr (js "Request failed with status code 404") in
  let w := run_request URLModel.whatwg_protocol (sample_env true o) fwd_param
             sample_req empty_world in
  map status (responses w.(trace)) = [502] /\
  field (find_record (js "r1") w) "forward_response_status" = Some (JNum 502).
Proof. vm_compute. split; reflexivity. Qed.

End Props.


(* ================================================================== *)
(** * Properties of the labels and of the file storage *)

Module LabelProps.
Import Parser Server Views Props Labels.


Lemma space_not_id : forall c, is_space c = true -> is_id_char c = false.
Proof.
  intros c H. apply not_true_is_false. intro H2.
  unfold is_space, is_id_char, is_digit in *.
  repeat match goal with
         | Hx : _ || _ = true |- _ => apply orb_true_iff in Hx; destruct Hx as [Hx|Hx]
         | Hx : _ && _ = true |- _ => apply andb_true_iff in Hx; destruct Hx
         | Hx : (_ <=? _) = true |- _ => apply Z.leb_le in Hx
         | Hx : (_ =? _) = true |- _ => apply Z.eqb_eq in Hx
         end; lia.
Qed.

Lemma first_run_non : forall c s, is_id_char c = false ->
  first_id_run (c :: s) = first_id_run s.
Proof. intros c s H. unfold first_id_run. simpl. rewrite H. reflexivity. Qed.

Lemma first_run_id : forall c s, is_id_char c = true ->
  first_id_run (c :: s) = c :: take_while is_id_char s.
Proof. intros c s H. unfold first_id_run. simpl. rewrite H. simpl. rewrite H. reflexivity. Qed.

Lemma take_while_app_non : forall u v,
  (forall x, In x v -> is_id_char x = false) ->
  take_while is_id_char (u ++ v) = take_while is_id_char u.
Proof.
  induction u as [|c u IH]; intros v Hv; simpl.
  - destruct v as [|x v]; [reflexivity|]. simpl. rewrite (Hv x (or_introl eq_refl)). reflexivity.
  - destruct (is_id_char c); [rewrite IH by exact Hv|]; reflexivity.
Qed.

Lemma first_run_app_non : forall u v,
  (forall x, In x v -> is_id_char x = false) ->
  first_id_run (u ++ v) = first_id_run u.
Proof.
  induction u as [|c u IH]; intros v Hv.
  - unfold first_id_run. simpl. induction v as [|x v IHv]; [reflexivity|].
    simpl. rewrite (Hv x (or_introl eq_refl)). apply IHv. intros y Hy. apply Hv. right. exact Hy.
  - simpl. destruct (is_id_char c) eqn:Hc.
    + rewrite !first_run_id by exact Hc. rewrite take_while_app_non by exact Hv. reflexivity.
    + rewrite !first_run_non by exact Hc. apply IH. exact Hv.
Qed.

Lemma trim_start_prefix : forall s, exists p, s = p ++ trim_start s /\
  forall x, In x p -> is_space x = true.
Proof.
  induction s as [|c s IH]; [exists []; split; [reflexivity | intros x []]|].
  simpl. destruct (is_space c) eqn:Hc.
  - destruct IH as [p [Hp Hs]]. exists (c :: p). split; [simpl; rewrite <- Hp; reflexivity|].
    intros x [<-|Hx]; [exact Hc | apply Hs; exact Hx].
  - exists []. split; [reflexivity | intros x []].
Qed.

Lemma trim_start_head : forall s c r, trim_start s = c :: r -> is_space c = false.
Proof.
  induction s as [|d s IH]; intros c r H; [discriminate|]. simpl in H.
  destruct (is_space d) eqn:Hd; [exact (IH c r H)|]. injection H as <- _. exact Hd.
Qed.

Lemma trim_end_suffix : forall s, exists q, s = trim_end s ++ q /\
  forall x, In x q -> is_space x = true.
Proof.
  intros s. destruct (trim_start_prefix (rev s)) as [p [Hp Hs]].
  exists (rev p). unfold trim_end. split.
  - rewrite <- rev_app_distr, <- Hp, rev_involutive. reflexivity.
  - intros x Hx. apply Hs. apply in_rev. exact Hx.
Qed.

Lemma all_space_non_id : forall p, (forall x, In x p -> is_space x = true) ->
  forall x, In x p -> is_id_char x = false.
Proof. intros p H x Hx. apply space_not_id. apply H. exact Hx. Qed.

Lemma first_run_trim_start : forall s, first_id_run (trim_start s) = first_id_run s.
Proof.
  induction s as [|c s IH]; [reflexivity|]. simpl. destruct (is_space c) eqn:Hc; [|reflexivity].
  rewrite first_run_non by (apply space_not_id; exact Hc). exact IH.
Qed.

Lemma first_run_trim : forall s, first_id_run (trim s) = first_id_run s.
Proof.
  intros s. unfold trim. destruct (trim_end_suffix (trim_start s)) as [q [Hq Hs]].
  transitivity (first_id_run (trim_end (trim_start s) ++ q)).
  - rewrite first_run_app_non by (apply all_space_non_id; exact Hs). reflexivity.
  - rewrite <- Hq. apply first_run_trim_start.
Qed.

Lemma trim_head : forall s c r, trim s = c :: r -> is_space c = false.
Proof.
  intros s c r H. unfold trim in H.
  destruct (trim_end_suffix (trim_start s)) as [q [Hq _]].
  rewrite H in Hq. simpl in Hq. exact (trim_start_head s c (r ++ q) Hq).
Qed.

Lemma take_while_collapse : forall s,
  take_while is_id_char (collapse_spaces false s) = take_while is_id_char s.
Proof.
  induction s as [|c s IH]; [reflexivity|]. simpl.
  destruct (is_space c) eqn:Hc.
  - simpl. rewrite (space_not_id c Hc). reflexivity.
  - simpl. destruct (is_id_char c); [rewrite IH|]; reflexivity.
Qed.

Lemma first_run_collapse : forall b s,
  first_id_run (collapse_spaces b s) = first_id_run s.
Proof.
  intros b s. revert b. induction s as [|c s IH]; intros b; [reflexivity|]. simpl.
  destruct (is_space c) eqn:Hc.
  - rewrite (first_run_non c s) by (apply space_not_id; exact Hc).
    destruct b; [apply IH|]. rewrite first_run_non by reflexivity. apply IH.
  - destruct (is_id_char c) eqn:Hi.
    + rewrite !first_run_id by exact Hi. rewrite take_while_collapse. reflexivity.
    + rewrite !first_run_non by exact Hi. apply IH.
Qed.

Lemma replace_char : forall c,
  let r := if is_id_char c || (c =? 32) then c else 32 in
  is_id_char r = is_id_char c /\ (is_id_char c = true -> r = c).
Proof.
  intros c. cbv zeta. destruct (is_id_char c) eqn:Hi; cbn [orb].
  - rewrite Hi. split; reflexivity.
  - destruct (c =? 32); [rewrite Hi|]; split; first [reflexivity | discriminate].
Qed.

Lemma take_while_replace : forall s,
  take_while is_id_char (replace_disallowed s) = take_while is_id_char s.
Proof.
  induction s as [|c s IH]; [reflexivity|]. unfold replace_disallowed in *. simpl.
  destruct (replace_char c) as [H1 H2]. rewrite H1.
  destruct (is_id_char c) eqn:Hi; [rewrite (H2 eq_refl), IH|]; reflexivity.
Qed.

Lemma first_run_replace : forall s,
  first_id_run (replace_disallowed s) = first_id_run s.
Proof.
  induction s as [|c s IH]; [reflexivity|]. unfold replace_disallowed in *. simpl.
  destruct (replace_char c) as [H1 H2].
  destruct (is_id_char c) eqn:Hi.
  - rewrite (H2 eq_refl). rewrite !first_run_id by exact Hi.
    fold (replace_disallowed s). rewrite take_while_replace. reflexivity.
  - rewrite first_run_non by (rewrite H1; reflexivity). rewrite first_run_non by exact Hi.
    exact IH.
Qed.

Lemma first_run_sanitize : forall s,
  first_id_run (sanitizeLabelInput s) = first_id_run s.
Proof.
  intros [|c s]; [reflexivity|]. unfold sanitizeLabelInput.
  rewrite first_run_trim, first_run_collapse, first_run_replace. reflexivity.
Qed.

(** the alphabet of a sanitized label *)
Lemma sanitize_alphabet : forall s, Forall (fun c => label_char c = true) (sanitizeLabelInput s).
Proof.
  intros [|c0 s0]; [constructor|]. unfold sanitizeLabelInput.
  assert (H1 : Forall (fun c => label_char c = true) (replace_disallowed (c0 :: s0))).
  { apply Forall_forall. intros x Hx. unfold replace_disallowed in Hx.
    apply in_map_iff in Hx as [c [<- _]]. unfold label_char.
    destruct (is_id_char c || (c =? 32)) eqn:E; [exact E|reflexivity]. }
  assert (H2 : forall b s, Forall (fun c => label_char c = true) s ->
                 Forall (fun c => label_char c = true) (collapse_spaces b s)).
  { intros b s. revert b. induction s as [|c s IH]; intros b Hs; [constructor|].
    inversion Hs as [|? ? Hc Hs']; subst. simpl.
    destruct (is_space c); [destruct b; [apply IH; exact Hs'|constructor; [reflexivity|apply IH; exact Hs']]|].
    constructor; [exact Hc | apply IH; exact Hs']. }
  specialize (H2 false _ H1). unfold trim.
  destruct (trim_start_prefix (collapse_spaces false (replace_disallowed (c0 :: s0))))
    as [p [Hp _]].
  rewrite Hp in H2. apply Forall_app in H2 as [_ H2].
  destruct (trim_end_suffix (trim_start (collapse_spaces false (replace_disallowed (c0 :: s0)))))
    as [q [Hq _]].
  rewrite Hq in H2. apply Forall_app in H2 as [H2 _]. exact H2.
Qed.

Lemma split_space_head : forall s, exists fs,
  split_space s = take_while (fun c => negb (c =? 32)) s :: fs.
Proof.
  induction s as [|c s [fs IH]]; [exists []; reflexivity|]. simpl. rewrite IH.
  destruct (c =? 32); simpl; eexists; reflexivity.
Qed.

Lemma take_while_alphabet : forall s, Forall (fun c => label_char c = true) s ->
  take_while (fun c => negb (c =? 32)) s = take_while is_id_char s.
Proof.
  induction s as [|c s IH]; intros Hs; [reflexivity|].
  inversion Hs as [|? ? Hc Hs']; subst. simpl. unfold label_char in Hc.
  destruct (is_id_char c) eqn:Hi; simpl in Hc.
  - assert (Hn : (c =? 32) = false) by (apply Z.eqb_neq; intros ->; discriminate).
    rewrite Hn. simpl. rewrite IH by exact Hs'. reflexivity.
  - rewrite Hc. reflexivity.
Qed.

Lemma first_token : forall s, Forall (fun c => label_char c = true) s ->
  match filter nonempty (split_space s) with t :: _ => t | [] => [] end = first_id_run s.
Proof.
  induction s as [|c s IH]; intros Hs; [reflexivity|].
  inversion Hs as [|? ? Hc Hs']; subst. simpl.
  destruct (split_space_head s) as [fs Hf]. rewrite Hf.
  unfold label_char in Hc. destruct (is_id_char c) eqn:Hi.
  - assert (Hn : (c =? 32) = false) by (apply Z.eqb_neq; intros ->; discriminate).
    rewrite Hn. simpl. rewrite first_run_id by exact Hi.
    rewrite take_while_alphabet by exact Hs'. reflexivity.
  - simpl in Hc. rewrite Hc. simpl. rewrite first_run_non by exact Hi.
    rewrite <- IH by exact Hs'. rewrite Hf. reflexivity.
Qed.

(** A string label given to [POST /webhooks] becomes its first run of [[A-Za-z0-9_-]] characters, or the default [URL <n+1>] when it has none. *)
Theorem webhook_label_first_run : forall count l,
  webhook_label count (Some (JStr l)) =
  Normal (match first_id_run l with [] => getNextLabel count | r => r end).
Proof.
  intros count l. unfold webhook_label.
  destruct l as [|c0 l0]; [reflexivity|].
  cbv beta iota.
  destruct (trim (c0 :: l0)) as [|t0 ts] eqn:Et.
  - rewrite <- first_run_trim, Et. reflexivity.
  - pose proof (first_run_sanitize (trim (c0 :: l0))) as Hs.
    rewrite first_run_trim in Hs. rewrite Et in Hs.
    pose proof (sanitize_alphabet (t0 :: ts)) as Ha.
    destruct (sanitizeLabelInput (t0 :: ts)) as [|c1 cs] eqn:Ec.
    + rewrite <- Hs. reflexivity.
    + assert (Hh : is_space c1 = false).
      { unfold sanitizeLabelInput in Ec. exact (trim_head _ c1 cs Ec). }
      assert (Hi : is_id_char c1 = true).
      { inversion Ha as [|? ? Hc _]; subst. unfold label_char in Hc.
        destruct (is_id_char c1); [reflexivity|]. simpl in Hc.
        apply Z.eqb_eq in Hc. subst. discriminate. }
      pose proof (first_token _ Ha) as Hft. rewrite Hs in Hft.
      rewrite first_run_id in Hs by exact Hi.
      rewrite <- Hs in Hft |- *.
      match goal with |- match ?F with _ => _ end = _ =>
        replace F with (filter nonempty (split_space (c1 :: cs))) by reflexivity end.
      destruct (filter nonempty (split_space (c1 :: cs))) as [|[|x t] ts'];
        try discriminate; cbn; rewrite Hft; reflexivity.
Qed.

End LabelProps.

Module FileProps.
Import Parser Server Props Labels FileStore FileSamples.


Lemma path_eqb : forall k' k,
  str_eqb (webhookFilePath k') (webhookFilePath k) = true <-> k' = k.
Proof.
  intros k' k. rewrite str_eqb_eq. unfold webhookFilePath. split.
  - apply app_inv_tail.
  - intros ->. reflexivity.
Qed.

Lemma path_neq : forall k' k, k' <> k ->
  str_eqb (webhookFilePath k') (webhookFilePath k) = false.
Proof.
  intros k' k H. destruct (str_eqb _ _) eqn:E; [|reflexivity].
  apply path_eqb in E. contradiction.
Qed.

Lemma read_write : forall k' k v st,
  readWebhookFile k' (writeWebhookFile k v st) =
  if st.(writable) && str_eqb (webhookFilePath k') (webhookFilePath k)
  then Some (to_json v) else readWebhookFile k' st.
Proof.
  intros k' k v st. unfold readWebhookFile, writeWebhookFile.
  destruct (writable st); simpl; [|reflexivity].
  rewrite obj_get_set. destruct (str_eqb _ _); reflexivity.
Qed.

Lemma read_delete : forall k' k st,
  readWebhookFile k' (deleteWebhook k st) =
  if st.(writable) && str_eqb (webhookFilePath k') (webhookFilePath k)
  then None else readWebhookFile k' st.
Proof.
  intros k' k st. unfold readWebhookFile, deleteWebhook.
  destruct (writable st); simpl; [|reflexivity].
  rewrite obj_get_delete. destruct (str_eqb _ _); reflexivity.
Qed.

Lemma write_writable : forall k v st, (writeWebhookFile k v st).(writable) = st.(writable).
Proof. intros k v st. unfold writeWebhookFile. destruct (writable st) eqn:E; [reflexivity | exact E]. Qed.

Lemma obj_get_json : forall (o : fobject) k,
  obj_get (map (fun kv => (fst kv, to_json (snd kv))) o) k = option_map to_json (obj_get o k).
Proof.
  intros o k. induction o as [|[k1 v1] o IH]; [reflexivity|]. simpl.
  destruct (str_eqb k k1); [reflexivity | exact IH].
Qed.

Lemma to_json_obj : forall o,
  to_json (VObj o) = VObj (map (fun kv => (fst kv, to_json (snd kv))) o).
Proof. reflexivity. Qed.

Lemma get_json : forall v k, get (to_json v) k = option_map to_json (get v k).
Proof. intros [] k; try reflexivity. apply obj_get_json. Qed.

(** the normalized request keeps [webhook_id] *)
Lemma request_webhook_id : forall tn data,
  obj_get (normalize_time tn data) (js "webhook_id") = obj_get data (js "webhook_id").
Proof.
  intros tn data. unfold normalize_time.
  destruct (obj_get data (js "time")) as [[]|]; cbv beta iota;
    repeat match goal with |- context [if ?b then _ else _] => destruct b end;
    rewrite ?obj_get_set; reflexivity.
Qed.

(** On a webhook file with a requests array, [saveRequest] appends the request at the end, keeps the webhook and touches no other file. *)
Theorem saveRequest_appends : forall ds tn tc data st k o l,
  st.(writable) = true ->
  obj_get data (js "webhook_id") = Some (VStr k) ->
  readWebhookFile k st = Some (VObj o) ->
  obj_get o (js "requests") = Some (VArr l) ->
  let (r, st') := saveRequest ds tn tc data st in
  exists req, r = Normal req /\
    requests_of (readWebhookFile k st') = map to_json l ++ [to_json (VObj req)] /\
    countRequests k st' = S (List.length l) /\
    (forall w, findWebhookById k st = Some (VObj w) ->
               findWebhookById k st' = Some (to_json (VObj w))) /\
    (forall k', k' <> k -> readWebhookFile k' st' = readWebhookFile k' st).
Proof.
  intros ds tn tc data st k o l Hw Hid Hr Hl. unfold saveRequest.
  rewrite request_webhook_id, Hid. cbn [key_of string_of]. rewrite Hr. cbn [truthy].
  rewrite Hl. cbn [opt_truthy truthy].
  generalize (normalize_time tn data) as req. intros req.
  exists req. split; [reflexivity|].
  assert (Hrd : readWebhookFile k (writeWebhookFile k
             (VObj (obj_set o (js "requests") (VArr (l ++ [VObj req])))) st) =
                Some (to_json (VObj (obj_set o (js "requests") (VArr (l ++ [VObj req]))))))
    by (rewrite read_write, Hw, (proj2 (path_eqb k k) eq_refl); reflexivity).
  unfold countRequests. rewrite Hrd, to_json_obj. cbn [requests_of truthy get].
  rewrite obj_get_json, obj_get_set, str_eqb_refl. cbn [option_map to_json].
  rewrite map_app. split; [reflexivity|]. split; [rewrite length_app, length_map; simpl; lia|].
  split.
  - intros w Hf. unfold findWebhookById in *. rewrite Hr in Hf. rewrite Hrd.
    rewrite to_json_obj. cbn [truthy get andb] in *. rewrite obj_get_json, obj_get_set.
    replace (str_eqb (js "webhook") (js "requests")) with false by reflexivity.
    destruct (obj_get o (js "webhook")) as [v|]; [|discriminate].
    cbn [opt_truthy option_map] in *. destruct (truthy v); [|discriminate].
    injection Hf as ->. reflexivity.
  - intros k' Hk. rewrite read_write, Hw, path_neq by exact Hk. reflexivity.
Qed.

Lemma read_write_same : forall k v st, st.(writable) = true ->
  readWebhookFile k (writeWebhookFile k v st) = Some (to_json v).
Proof. intros k v st Hw. rewrite read_write, Hw, (proj2 (path_eqb k k) eq_refl). reflexivity. Qed.

Lemma read_write_other : forall k' k v st, k' <> k ->
  readWebhookFile k' (writeWebhookFile k v st) = readWebhookFile k' st.
Proof. intros k' k v st Hk. rewrite read_write, path_neq by exact Hk. rewrite andb_false_r. reflexivity. Qed.

(** When the webhook file is missing, unparsable or falsy, [saveRequest] writes a placeholder webhook labelled [URL <id>] holding only this request. *)
Theorem saveRequest_placeholder : forall ds tn tc data st k,
  st.(writable) = true ->
  obj_get data (js "webhook_id") = Some (VStr k) ->
  opt_truthy (readWebhookFile k st) = false ->
  let (r, st') := saveRequest ds tn tc data st in
  r = Normal (normalize_time tn data) /\
  requests_of (readWebhookFile k st') = [to_json (VObj (normalize_time tn data))] /\
  countRequests k st' = 1%nat /\
  findWebhookById k st' =
    Some (VObj [(js "id", VStr k); (js "label", VStr (js "URL " ++ k));
                (js "status", VNum 200); (js "content_type", VStr (js "text/html"));
                (js "destination", VStr []); (js "tags", VArr []);
                (js "created_at", VStr tc)]) /\
  (forall k', k' <> k -> readWebhookFile k' st' = readWebhookFile k' st).
Proof.
  intros ds tn tc data st k Hw Hid Hf. unfold saveRequest.
  rewrite request_webhook_id, Hid. cbn [key_of string_of].
  generalize (normalize_time tn data) as req. intros req.
  destruct (readWebhookFile k st) as [p|] eqn:Hr; [cbn [opt_truthy] in Hf; rewrite Hf|].
  all: unfold countRequests, findWebhookById; rewrite read_write_same by exact Hw.
  all: split; [reflexivity|]; split; [reflexivity|]; split; [reflexivity|];
    split; [reflexivity|].
  all: intros k' Hk; apply read_write_other, Hk.
Qed.

Lemma obj_get_set_other : forall A (o : list (jsstr * A)) k k' v,
  str_eqb k k' = false -> obj_get (obj_set o k' v) k = obj_get o k.
Proof. intros A o k k' v H. rewrite obj_get_set, H. reflexivity. Qed.

Lemma str_neqb : forall k k', k <> k' -> str_eqb k k' = false.
Proof.
  intros k k' H. destruct (str_eqb k k') eqn:E; [|reflexivity].
  apply str_eqb_eq in E. contradiction.
Qed.

(** When the storage cannot be written, no storage operation changes it, yet [saveRequest] on a missing file and [DELETE /webhooks/:id] still report success. *)
Theorem unwritable_storage : forall ds tn tc now data wd st k param,
  st.(writable) = false ->
  snd (saveRequest ds tn tc data st) = st /\
  snd (saveWebhook ds now wd st) = st /\
  deleteWebhook k st = st /\
  deleteRequests k st = st /\
  snd (delete_route param st) = st /\
  (readWebhookFile (key_of ds (obj_get data (js "webhook_id"))) st = None ->
   fst (saveRequest ds tn tc data st) = Normal (normalize_time tn data)) /\
  (sanitizeId param <> None -> fst (fst (delete_route param st)) = 200).
Proof.
  intros ds tn tc now data wd st k param Hw.
  assert (Hwr : forall k v, writeWebhookFile k v st = st)
    by (intros k' v; unfold writeWebhookFile; rewrite Hw; reflexivity).
  assert (Hdw : forall k, deleteWebhook k st = st)
    by (intros k'; unfold deleteWebhook; rewrite Hw; reflexivity).
  assert (Hdr : forall k, deleteRequests k st = st).
  { intros k'. unfold deleteRequests. destruct (readWebhookFile k' st) as [p|]; [|reflexivity].
    destruct (truthy p); [apply Hwr | reflexivity]. }
  split.
  { unfold saveRequest. destruct (readWebhookFile _ st) as [p|]; [|apply Hwr].
    destruct (truthy p); [|apply Hwr]. destruct p; try reflexivity; try apply Hwr.
    destruct (if opt_truthy _ then _ else _) as [[]|]; try reflexivity; apply Hwr. }
  split; [apply Hwr|]. split; [apply Hdw|]. split; [apply Hdr|].
  split; [unfold delete_route; destruct (sanitizeId param); [rewrite Hdw; apply Hdr | reflexivity]|].
  split.
  - intros Hn. unfold saveRequest. rewrite request_webhook_id, Hn. reflexivity.
  - unfold delete_route. destruct (sanitizeId param); [reflexivity | intros H; contradiction].
Qed.

(** [DELETE /webhooks/:id] answers [400] and changes nothing on an id that sanitizes to nothing; otherwise it answers [200] and, on writable storage, removes exactly that webhook's file. *)
Theorem delete_route_effect : forall param st,
  let (resp, st') := delete_route param st in
  match sanitizeId param with
  | None => fst resp = 400 /\ st' = st
  | Some id =>
      fst resp = 200 /\
      (st.(writable) = true ->
       findWebhookById id st' = None /\ countRequests id st' = 0%nat /\
       (forall k', k' <> id -> readWebhookFile k' st' = readWebhookFile k' st))
  end.
Proof.
  intros param st. unfold delete_route.
  destruct (sanitizeId param) as [id|]; [|split; reflexivity].
  split; [reflexivity|]. intros Hw.
  assert (Hd : readWebhookFile id (deleteWebhook id st) = None)
    by (rewrite read_delete, Hw, (proj2 (path_eqb id id) eq_refl); reflexivity).
  assert (Hr : deleteRequests id (deleteWebhook id st) = deleteWebhook id st)
    by (unfold deleteRequests; rewrite Hd; reflexivity).
  rewrite Hr. unfold findWebhookById, countRequests. rewrite Hd.
  split; [reflexivity|]. split; [reflexivity|].
  intros k' Hk. rewrite read_delete, path_neq by exact Hk. rewrite andb_false_r. reflexivity.
Qed.

(** After [saveWebhook], the webhook is found by its id with no requests (an existing file is overwritten), [created_at] is set unless truthy, and no other file changes. *)
Theorem saveWebhook_roundtrip : forall ds now wd st k,
  st.(writable) = true ->
  obj_get wd (js "id") = Some (VStr k) ->
  let (wh, st') := saveWebhook ds now wd st in
  findWebhookById k st' = Some (to_json (VObj wh)) /\
  countRequests k st' = 0%nat /\
  obj_get wh (js "created_at") =
    (if opt_truthy (obj_get wd (js "created_at")) then obj_get wd (js "created_at")
     else Some (VStr now)) /\
  (forall f, f <> js "created_at" -> obj_get wh f = obj_get wd f) /\
  (forall k', k' <> k -> readWebhookFile k' st' = readWebhookFile k' st).
Proof.
  intros ds now wd st k Hw Hid. unfold saveWebhook. cbv zeta.
  match goal with |- context [key_of ds (obj_get ?W (js "id"))] =>
    remember W as wh eqn:Ewh end.
  assert (Hf : forall f, f <> js "created_at" -> obj_get wh f = obj_get wd f).
  { intros f Hne. rewrite Ewh. destruct (opt_truthy _); [reflexivity|].
    apply obj_get_set_other, str_neqb, Hne. }
  assert (Hc : obj_get wh (js "created_at") =
    (if opt_truthy (obj_get wd (js "created_at")) then obj_get wd (js "created_at")
     else Some (VStr now))).
  { rewrite Ewh. destruct (opt_truthy _); [reflexivity|].
    rewrite obj_get_set, str_eqb_refl. reflexivity. }
  rewrite (Hf (js "id")), Hid by discriminate. clear Ewh.
  cbn [key_of string_of]. unfold findWebhookById, countRequests.
  rewrite read_write_same by exact Hw. rewrite to_json_obj.
  cbn [map fst snd get obj_get requests_of truthy opt_truthy andb].
  rewrite str_eqb_refl. cbn [truthy opt_truthy andb to_json].
  split; [reflexivity|].
  replace (str_eqb (js "requests") (js "webhook")) with false by reflexivity.
  rewrite str_eqb_refl. split; [reflexivity|].
  split; [exact Hc|]. split; [exact Hf|].
  intros k' Hk. apply read_write_other, Hk.
Qed.

Lemma pick_id_spec : forall gen st fuel tries,
  findWebhookById (pick_id gen tries fuel st) st <> None ->
  pick_id gen tries fuel st = gen (tries + fuel)%nat /\
  (forall i, (tries <= i < tries + fuel)%nat -> findWebhookById (gen i) st <> None).
Proof.
  intros gen st fuel. induction fuel as [|f IH]; intros tries H; simpl in *.
  - split; [f_equal; lia | intros i Hi; lia].
  - destruct (findWebhookById (gen tries) st) eqn:E; [|contradiction].
    destruct (IH (S tries) H) as [H1 H2]. split.
    + rewrite H1. f_equal. lia.
    + intros i Hi. destruct (Nat.eq_dec i tries) as [->|Hne].
      * rewrite E. discriminate.
      * apply H2. lia.
Qed.

(** The id [POST /webhooks] picks is unused unless the first five generated ids are all in use, in which case the sixth is taken unchecked. *)
Theorem unique_id_taken : forall gen st,
  findWebhookById (unique_id gen st) st <> None ->
  unique_id gen st = gen 5%nat /\
  (forall i, (i < 5)%nat -> findWebhookById (gen i) st <> None).
Proof.
  intros gen st H. destruct (pick_id_spec gen st 5 0 H) as [H1 H2].
  split; [exact H1 | intros i Hi; apply H2; lia].
Qed.

(** [POST /webhooks] answers [500] and changes nothing when the label has no [trim]; otherwise it redirects and stores a webhook with the chosen id and label and no requests. *)
Theorem create_route_effect : forall ds gen now label st,
  st.(writable) = true ->
  let id := unique_id gen st in
  let (code, st') := create_route ds gen now label st in
  match webhook_label (webhook_count st) label with
  | Throw _ => code = 500 /\ st' = st
  | Normal lbl =>
      code = 302 /\
      findWebhookById id st' =
        Some (VObj [(js "id", VStr id); (js "label", VStr lbl); (js "created_at", VStr now)]) /\
      countRequests id st' = 0%nat /\
      (forall k', k' <> id -> readWebhookFile k' st' = readWebhookFile k' st)
  end.
Proof.
  intros ds gen now label st Hw. cbv zeta. unfold create_route.
  destruct (webhook_label (webhook_count st) label) as [lbl|e]; [|split; reflexivity].
  split; [reflexivity|]. unfold saveWebhook. cbv zeta.
  cbn [obj_get]. replace (str_eqb (js "created_at") (js "id")) with false by reflexivity.
  replace (str_eqb (js "created_at") (js "label")) with false by reflexivity.
  cbn [opt_truthy obj_set]. replace (str_eqb (js "created_at") (js "id")) with false by reflexivity.
  replace (str_eqb (js "created_at") (js "label")) with false by reflexivity.
  cbn [obj_get]. rewrite str_eqb_refl. cbn [key_of string_of snd].
  unfold findWebhookById, countRequests. rewrite read_write_same by exact Hw.
  split; [reflexivity|]. split; [reflexivity|].
  intros k' Hk. apply read_write_other, Hk.
Qed.

Lemma find_rid_found : forall rid l idx r,
  find_rid rid l = Found idx r ->
  nth_error l idx = Some (VObj r) /\ obj_get r (js "rid") = Some (VStr rid).
Proof.
  intros rid l. induction l as [|v l IH]; intros idx r H; [discriminate|].
  assert (Hs : forall x, match find_rid rid l with Found i r' => Found (S i) r' | x => x end
                         = Found idx r -> nth_error (x :: l) idx = Some (VObj r) /\
                                          obj_get r (js "rid") = Some (VStr rid)).
  { intros x Hx. destruct (find_rid rid l) as [i r'| |] eqn:E; try discriminate.
    injection Hx as <- <-. exact (IH i r' eq_refl). }
  destruct v; simpl in H; try discriminate; try exact (Hs _ H).
  destruct (obj_get fields (js "rid")) as [[]|] eqn:Er; try exact (Hs _ H).
  destruct (str_eqb s rid) eqn:Eq; [|exact (Hs _ H)].
  injection H as <- <-. apply str_eqb_eq in Eq. subst s. split; [reflexivity | exact Er].
Qed.

Lemma update_files_cases : forall rid patch st fl,
  update_files rid patch fl st = st \/
  exists f o l idx r,
    st.(writable) = true /\ In f fl /\
    obj_get st.(files) f = Some (Some (VObj o)) /\
    obj_get o (js "requests") = Some (VArr l) /\
    nth_error l idx = Some (VObj r) /\ obj_get r (js "rid") = Some (VStr rid) /\
    update_files rid patch fl st =
      {| files := obj_set st.(files) f (Some (to_json (VObj (obj_set o (js "requests")
                    (VArr (firstn idx l ++ VObj (obj_merge r patch) :: skipn (S idx) l))))));
         writable := st.(writable) |}.
Proof.
  intros rid patch st fl. induction fl as [|f fl IH]; [left; reflexivity|].
  assert (Hskip : update_files rid patch fl st = st \/
    exists f' o l idx r, st.(writable) = true /\ In f' (f :: fl) /\
      obj_get st.(files) f' = Some (Some (VObj o)) /\
      obj_get o (js "requests") = Some (VArr l) /\
      nth_error l idx = Some (VObj r) /\ obj_get r (js "rid") = Some (VStr rid) /\
      update_files rid patch fl st =
        {| files := obj_set st.(files) f' (Some (to_json (VObj (obj_set o (js "requests")
                      (VArr (firstn idx l ++ VObj (obj_merge r patch) :: skipn (S idx) l))))));
           writable := st.(writable) |}).
  { destruct IH as [IH|(f' & o & l & idx & r & H1 & H2 & H3)]; [left; exact IH|].
    right. exists f', o, l, idx, r. split; [exact H1|]. split; [right; exact H2 | exact H3]. }
  simpl. destruct (obj_get (files st) f) as [[[]|]|] eqn:Ef; try exact Hskip.
  destruct (obj_get fields (js "requests")) as [[]|] eqn:Eq; try exact Hskip.
  destruct (find_rid rid items) as [idx r| |] eqn:Efr; try exact Hskip.
  destruct (writable st) eqn:Hw; [|exact Hskip].
  right. destruct (find_rid_found rid items idx r Efr) as [Hn Hr].
  exists f, fields, items, idx, r.
  split; [reflexivity|]. split; [left; reflexivity|].
  do 4 (split; [assumption|]). reflexivity.
Qed.

(** File-mode [updateRequest] changes at most one listed file: the first request with the rid in it gets the update merged in place. *)
Theorem updateRequest_one_file : forall rid patch st,
  let st' := updateRequest rid patch st in
  st' = st \/
  exists f o l idx r,
    st.(writable) = true /\ In f (listWebhookFiles st) /\
    obj_get st.(files) f = Some (Some (VObj o)) /\
    obj_get o (js "requests") = Some (VArr l) /\
    nth_error l idx = Some (VObj r) /\ obj_get r (js "rid") = Some (VStr rid) /\
    st'.(writable) = true /\
    (forall g, g <> f -> obj_get st'.(files) g = obj_get st.(files) g) /\
    obj_get st'.(files) f =
      Some (Some (to_json (VObj (obj_set o (js "requests")
        (VArr (firstn idx l ++ VObj (obj_merge r patch) :: skipn (S idx) l)))))).
Proof.
  intros rid patch st. cbv zeta. unfold updateRequest.
  destruct (update_files_cases rid patch st (listWebhookFiles st))
    as [H|(f & o & l & idx & r & Hw & Hin & Hf & Hl & Hn & Hr & Heq)]; [left; exact H|].
  right. exists f, o, l, idx, r. rewrite Heq. cbn [files writable].
  repeat split; try assumption.
  - intros g Hg. rewrite obj_get_set, str_neqb by exact Hg. reflexivity.
  - rewrite obj_get_set, str_eqb_refl. reflexivity.
Qed.

(** ** Witnesses *)

Lemma saveRequest_appends_witness :
  st_abc.(writable) = true /\
  obj_get req_abc (js "webhook_id") = Some (VStr (js "abc")) /\
  readWebhookFile (js "abc") st_abc = Some (VObj file_abc) /\
  obj_get file_abc (js "requests") = Some (VArr [VObj [(js "rid", VStr (js "r0"))]]) /\
  countRequests (js "abc") (snd (saveRequest ds0 t0 t0 req_abc st_abc)) = 2%nat.
Proof.
  assert (H1 : st_abc.(writable) = true) by reflexivity.
  assert (H2 : obj_get req_abc (js "webhook_id") = Some (VStr (js "abc"))) by reflexivity.
  assert (H3 : readWebhookFile (js "abc") st_abc = Some (VObj file_abc)) by reflexivity.
  assert (H4 : obj_get file_abc (js "requests") = Some (VArr [VObj [(js "rid", VStr (js "r0"))]]))
    by reflexivity.
  split; [exact H1|]. split; [exact H2|]. split; [exact H3|]. split; [exact H4|].
  generalize (saveRequest_appends ds0 t0 t0 req_abc st_abc _ _ _ H1 H2 H3 H4).
  destruct (saveRequest ds0 t0 t0 req_abc st_abc) as [r st'].
  intros (req & _ & _ & Hc & _). exact Hc.
Defined.

Lemma saveRequest_placeholder_witness :
  st_new.(writable) = true /\
  obj_get req_abc (js "webhook_id") = Some (VStr (js "abc")) /\
  opt_truthy (readWebhookFile (js "abc") st_new) = false /\
  findWebhookById (js "abc") (snd (saveRequest ds0 t0 t0 req_abc st_new)) =
    Some (VObj [(js "id", VStr (js "abc")); (js "label", VStr (js "URL " ++ js "abc"));
                (js "status", VNum 200); (js "content_type", VStr (js "text/html"));
                (js "destination", VStr []); (js "tags", VArr []);
                (js "created_at", VStr t0)]).
Proof.
  assert (H1 : st_new.(writable) = true) by reflexivity.
  assert (H2 : obj_get req_abc (js "webhook_id") = Some (VStr (js "abc"))) by reflexivity.
  assert (H3 : opt_truthy (readWebhookFile (js "abc") st_new) = false) by reflexivity.
  split; [exact H1|]. split; [exact H2|]. split; [exact H3|].
  generalize (saveRequest_placeholder ds0 t0 t0 req_abc st_new _ H1 H2 H3).
  destruct (saveRequest ds0 t0 t0 req_abc st_new) as [r st'].
  intros (_ & _ & _ & Hf & _). exact Hf.
Defined.

Lemma unwritable_storage_witness :
  st_ro.(writable) = false /\
  snd (saveRequest ds0 t0 t0 req_abc st_ro) = st_ro /\
  fst (saveRequest ds0 t0 t0 req_abc st_ro) = Normal (normalize_time t0 req_abc) /\
  snd (delete_route (js "abc") st_ro) = st_ro /\
  fst (fst (delete_route (js "abc") st_ro)) = 200.
Proof.
  assert (Hw : st_ro.(writable) = false) by reflexivity.
  destruct (unwritable_storage ds0 t0 t0 t0 req_abc [] st_ro (js "abc") (js "abc") Hw)
    as (Hs & _ & _ & _ & Hd & Hn & Hr).
  split; [exact Hw|]. split; [exact Hs|]. split; [exact (Hn eq_refl)|].
  split; [exact Hd | apply Hr; discriminate].
Defined.

Lemma saveWebhook_roundtrip_witness :
  st_abc.(writable) = true /\
  obj_get [(js "id", VStr (js "abc")); (js "label", VStr (js "B"))] (js "id")
    = Some (VStr (js "abc")) /\
  countRequests (js "abc") st_abc = 1%nat /\
  countRequests (js "abc")
    (snd (saveWebhook ds0 t0 [(js "id", VStr (js "abc")); (js "label", VStr (js "B"))] st_abc))
    = 0%nat.
Proof.
  assert (H1 : st_abc.(writable) = true) by reflexivity.
  assert (H2 : obj_get [(js "id", VStr (js "abc")); (js "label", VStr (js "B"))] (js "id")
                 = Some (VStr (js "abc"))) by reflexivity.
  split; [exact H1|]. split; [exact H2|]. split; [reflexivity|].
  generalize (saveWebhook_roundtrip ds0 t0 _ st_abc _ H1 H2).
  destruct (saveWebhook ds0 t0 _ st_abc) as [wh st'].
  intros (_ & Hc & _). exact Hc.
Defined.

Lemma unique_id_taken_witness :
  findWebhookById (unique_id gen_abc st_abc) st_abc <> None /\
  unique_id gen_abc st_abc = gen_abc 5%nat /\
  findWebhookById (gen_abc 0%nat) st_abc <> None.
Proof.
  assert (H : findWebhookById (unique_id gen_abc st_abc) st_abc <> None)
    by (vm_compute; discriminate).
  destruct (unique_id_taken gen_abc st_abc H) as [H1 H2].
  split; [exact H|]. split; [exact H1 | apply H2; lia].
Defined.

Lemma create_route_effect_witness :
  st_abc.(writable) = true /\
  webhook_label (webhook_count st_abc) (Some (JStr (js " my hook! "))) = Normal (js "my") /\
  fst (create_route ds0 gen_abc t0 (Some (JStr (js " my hook! "))) st_abc) = 302 /\
  countRequests (unique_id gen_abc st_abc)
    (snd (create_route ds0 gen_abc t0 (Some (JStr (js " my hook! "))) st_abc)) = 0%nat.
Proof.
  assert (H1 : st_abc.(writable) = true) by reflexivity.
  assert (H2 : webhook_label (webhook_count st_abc) (Some (JStr (js " my hook! ")))
                 = Normal (js "my")) by (vm_compute; reflexivity).
  split; [exact H1|]. split; [exact H2|].
  generalize (create_route_effect ds0 gen_abc t0 (Some (JStr (js " my hook! "))) st_abc H1).
  cbv zeta. rewrite H2.
  destruct (create_route ds0 gen_abc t0 (Some (JStr (js " my hook! "))) st_abc) as [code st'].
  intros (Hc & _ & Hn & _). split; [exact Hc | exact Hn].
Defined.

End FileProps.
